(** * finalhandler: the last handler of an HTTP middleware chain

    A shallow embedding of [index.js] and the properties of its
    status resolution, body rendering and response finalisation. *)

From Stdlib Require Import Ascii String NArith ZArith List Bool Lia.
From Equations Require Import Equations.
Import ListNotations.

Local Open Scope N_scope.

(** ** JavaScript values used by the handler *)

(** A JavaScript string is a sequence of UTF-16 code units. *)
Definition jsstring := list N.

(** Reader of the string literals of the source: [\n] is the only escape
    sequence that [index.js] uses. *)
Fixpoint js (s : string) : jsstring :=
  match s with
  | EmptyString => []
  | String "\"%char (String "n"%char r) => 10 :: js r
  | String a r => N_of_ascii a :: js r
  end.

Arguments js s%_string.

(** [a === b] on strings *)
Fixpoint jsstring_eqb (a b : jsstring) : bool :=
  match a, b with
  | [], [] => true
  | x :: a', y :: b' => N.eqb x y && jsstring_eqb a' b'
  | _, _ => false
  end.

(** [ToBoolean]: the conversion behind [if (x)], [!x], [x || y] and [?:]. *)
Class Truthy (A : Type) := truthy : A -> bool.

#[export] Instance Truthy_bool : Truthy bool := fun b => b.
#[export] Instance Truthy_number : Truthy Z := fun z => negb (Z.eqb z 0).
#[export] Instance Truthy_string : Truthy jsstring :=
  fun s => match s with [] => false | _ :: _ => true end.
(** A property that may be missing: [None] is [undefined]. *)
#[export] Instance Truthy_optional {A} `{Truthy A} : Truthy (option A) :=
  fun o => match o with Some a => truthy a | None => false end.

(** [a || b] *)
Definition jsor {A} `{Truthy A} (a b : A) : A := if truthy a then a else b.

(** [String(v)] and [v + ''] for a value that is a string or [undefined]. *)
Definition String_ (v : option jsstring) : jsstring :=
  match v with Some s => s | None => js "undefined" end.

(** ** [String.prototype.replace] with a global literal pattern *)

Fixpoint starts_with (pat s : jsstring) : bool :=
  match pat, s with
  | [], _ => true
  | p :: pat', c :: s' => N.eqb p c && starts_with pat' s'
  | _ :: _, [] => false
  end.

(** The scan of [s.replace(/p ps/g, rep)]: at each position the pattern
    either matches, and the scan goes on behind the match, or the code
    unit is kept. *)
Equations? replace_all (p : N) (ps rep s : jsstring) : jsstring
  by wf (length s) lt :=
  replace_all p ps rep [] := [];
  replace_all p ps rep (c :: s') with starts_with (p :: ps) (c :: s') := {
    | true := rep ++ replace_all p ps rep (skipn (length ps) s');
    | false := c :: replace_all p ps rep s' }.
Proof.
  all: simpl; rewrite ?length_skipn; lia.
Qed.

(** [s.replace(/pat/g, rep)] for the non-empty literal patterns of the
    source. *)
Definition replace (pat rep s : jsstring) : jsstring :=
  match pat with
  | [] => s
  | p :: ps => replace_all p ps rep s
  end.

(** ** Collaborators outside the repository *)

(** Modelled from the spec: the [escape-html] package, which is not part of
    the sources; it escapes the ampersand, both quotes and the angle
    brackets of the string form of its argument. *)
Definition escape_unit (c : N) : jsstring :=
  if c =? 34 then js "&quot;"
  else if c =? 38 then js "&amp;"
  else if c =? 39 then js "&#39;"
  else if c =? 60 then js "&lt;"
  else if c =? 62 then js "&gt;"
  else [c].

Definition escapeHtml (v : option jsstring) : jsstring :=
  flat_map escape_unit (String_ v).

(** High and low surrogates. *)
Definition is_high (c : N) : bool := (0xD800 <=? c) && (c <=? 0xDBFF).

Definition is_low (c : N) : bool := (0xDC00 <=? c) && (c <=? 0xDFFF).

(** A continuation byte: the low six bits behind the mark [10]. *)
Definition cont (n : N) : N := N.lor 0x80 (N.land n 0x3F).

(** The one to four bytes of a scalar value. *)
Definition utf8_scalar (cp : N) : list N :=
  if cp <? 0x80 then [cp]
  else if cp <? 0x800 then [N.lor 0xC0 (N.shiftr cp 6); cont cp]
  else if cp <? 0x10000 then
    [N.lor 0xE0 (N.shiftr cp 12); cont (N.shiftr cp 6); cont cp]
  else
    [N.lor 0xF0 (N.land (N.shiftr cp 18) 0x07); cont (N.shiftr cp 12);
     cont (N.shiftr cp 6); cont cp].

(** U+FFFD *)
Definition replacement : list N := [0xEF; 0xBF; 0xBD].

(** Modelled from the spec: [new Buffer(string, 'utf8')], the UTF-8 encoder
    of the runtime, which is not part of the sources.  A surrogate pair
    encodes the scalar value it stands for, a lone surrogate encodes as
    U+FFFD. *)
Fixpoint utf8 (s : jsstring) : list N :=
  match s with
  | [] => []
  | c :: s' =>
    if is_high c then
      match s' with
      | d :: s'' =>
        if is_low d
        then utf8_scalar (0x10000 + N.shiftl (c - 0xD800) 10 + (d - 0xDC00))
               ++ utf8 s''
        else replacement ++ utf8 s'
      | [] => replacement
      end
    else if is_low c then replacement ++ utf8 s'
    else utf8_scalar c ++ utf8 s'
  end.

(** A [Buffer] with the [type] property that the body constructors attach. *)
Record Buffer := mkBuffer { bytes : list N; type : jsstring }.

(** [body.length] *)
Definition Buffer_length (b : Buffer) : Z := Z.of_nat (length (bytes b)).

(** Modelled from the spec: header names are matched without regard to
    case by the runtime's response object, which keeps them in lower case;
    the names set here are ASCII. *)
Definition toLowerCase (s : jsstring) : jsstring :=
  map (fun c => if (65 <=? c) && (c <=? 90) then c + 32 else c) s.

(** ** Objects *)

(** Objects live in the world and are passed around by reference. *)
Definition Handle := nat.

(** A function supplied by the application, known by its identity only. *)
Definition Callback := nat.

(** The error value handed to the handler.  A status field holds a number,
    an integer here, or is missing; [stack] holds a string or is missing;
    [toString] is [String(err)].  In [option Error.t], [None] stands for
    every falsy argument of the returned function. *)
Module Error.
Record t := mk {
  statusCode : option Z;
  status : option Z;
  stack : option jsstring;
  toString : jsstring }.
End Error.

(** An object is truthy whatever its properties. *)
#[export] Instance Truthy_error : Truthy Error.t := fun _ => true.

Module Options.
Record t := mk {
  onerror : option Callback;
  stacktrace : option bool }.
(** [{}] *)
Definition empty : t := mk None None.
End Options.

Inductive HeaderValue :=
| HStr (s : jsstring)
| HNum (n : Z).

(** [http.ServerResponse]: [statusCode] is a number, an integer here;
    [_header] holds whether the header block has been rendered, [output]
    the body bytes handed to the connection. *)
Module Res.
Record t := mk {
  statusCode : Z;
  _header : bool;
  headers : list (jsstring * HeaderValue);
  finished : bool;
  output : list N }.

Definition with_statusCode (v : Z) (r : t) : t :=
  mk v (_header r) (headers r) (finished r) (output r).
Definition with_headers (h : list (jsstring * HeaderValue)) (r : t) : t :=
  mk (statusCode r) (_header r) h (finished r) (output r).
Definition ended (data : list N) (r : t) : t :=
  mk (statusCode r) true (headers r) true (output r ++ data).

(** A status that the response refuses to put on the wire. *)
Definition invalid_status (r : t) : bool :=
  ((statusCode r <? 100) || (999 <? statusCode r))%Z.

Definition setHeader (name : jsstring) (v : HeaderValue) (r : t) : t :=
  let key := toLowerCase name in
  with_headers
    ((key, v) :: filter (fun kv => negb (jsstring_eqb (fst kv) key)) (headers r)) r.

Definition getHeader (name : jsstring) (r : t) : option HeaderValue :=
  match find (fun kv => jsstring_eqb (fst kv) (toLowerCase name)) (headers r) with
  | Some kv => Some (snd kv)
  | None => None
  end.
End Res.

(** The closure [write] of [send], with the variables it captures. *)
Inductive Listener :=
| WriteListener (req res : Handle) (status : Z) (body : Buffer).

(** [http.IncomingMessage] with the socket it was read from: [finished] is
    what [isFinished(req)] reports, [pipes] the destinations the stream is
    piped to, [listeners] the callbacks waiting for the stream to finish. *)
Module Req.
Record t := mk {
  method : jsstring;
  originalUrl : option jsstring;
  url : jsstring;
  finished : bool;
  pipes : list Handle;
  flowing : bool;
  listeners : list Listener;
  socket_destroyed : bool }.

Definition with_finished (b : bool) (r : t) : t :=
  mk (method r) (originalUrl r) (url r) b (pipes r) (flowing r)
     (listeners r) (socket_destroyed r).
Definition with_pipes (p : list Handle) (r : t) : t :=
  mk (method r) (originalUrl r) (url r) (finished r) p (flowing r)
     (listeners r) (socket_destroyed r).
Definition with_flowing (b : bool) (r : t) : t :=
  mk (method r) (originalUrl r) (url r) (finished r) (pipes r) b
     (listeners r) (socket_destroyed r).
Definition with_listeners (l : list Listener) (r : t) : t :=
  mk (method r) (originalUrl r) (url r) (finished r) (pipes r) (flowing r)
     l (socket_destroyed r).
Definition with_socket_destroyed (b : bool) (r : t) : t :=
  mk (method r) (originalUrl r) (url r) (finished r) (pipes r) (flowing r)
     (listeners r) b.
End Req.

(** A call that waits in the queue of [setImmediate]. *)
Inductive Task :=
| Call_onerror (fn : Callback) (err : Error.t) (req res : Handle)
| Call_listener (l : Listener).

(** What the handler and its environment do, in the order they do it. *)
Inductive Event :=
| EDebug (fmt : jsstring) (arg : option Z)
| EDefer (t : Task)
| EDestroy (req : Handle)
| ESetStatus (res : Handle) (status : Z)
| ESetHeader (res : Handle) (name : jsstring) (v : HeaderValue)
| EEnd (res : Handle) (data : option (list N))
| EUnpipe (req : Handle)
| EOnFinished (req : Handle) (l : Listener)
| EResume (req : Handle)
| EFinished (req : Handle)
| EInvoke (fn : Callback) (err : Error.t) (req res : Handle).

Record World := mkWorld {
  requests : Handle -> Req.t;
  responses : Handle -> Res.t;
  immediates : list Task;
  trace : list Event }.

Definition upd {A} (h : Handle) (v : A) (f : Handle -> A) : Handle -> A :=
  fun k => if Nat.eqb k h then v else f k.

(** ** Effects: state and exceptions *)

(** The exceptions of the runtime that the calls of the source can meet:
    a header set on a response whose header block is out, and a header
    block asked for with a status outside the range 100 to 999. *)
Inductive Exception :=
| HeadersSent
| InvalidStatusCode (status : Z).

Inductive Completion (A : Type) :=
| Normal (a : A)
| Throw (e : Exception).
Arguments Normal {A} a.
Arguments Throw {A} e.

Definition JS (A : Type) := World -> Completion A * World.

Definition ret {A} (a : A) : JS A := fun w => (Normal a, w).

Definition bind {A B} (m : JS A) (k : A -> JS B) : JS B :=
  fun w => match m w with
           | (Normal a, w') => k a w'
           | (Throw e, w') => (Throw e, w')
           end.

Definition throw {A} (e : Exception) : JS A := fun w => (Throw e, w).

Declare Scope js_scope.
Delimit Scope js_scope with js.
Notation "x <- m ;; k" := (bind m (fun x => k))
  (at level 100, m at next level, right associativity) : js_scope.
Notation "m ;; k" := (bind m (fun _ => k))
  (at level 100, right associativity) : js_scope.
Local Open Scope js_scope.

Definition get_req (req : Handle) : JS Req.t := fun w => (Normal (requests w req), w).
Definition get_res (res : Handle) : JS Res.t := fun w => (Normal (responses w res), w).

Definition set_req (req : Handle) (r : Req.t) : JS unit :=
  fun w => (Normal tt,
            mkWorld (upd req r (requests w)) (responses w) (immediates w) (trace w)).
Definition set_res (res : Handle) (r : Res.t) : JS unit :=
  fun w => (Normal tt,
            mkWorld (requests w) (upd res r (responses w)) (immediates w) (trace w)).

Definition log (e : Event) : JS unit :=
  fun w => (Normal tt,
            mkWorld (requests w) (responses w) (immediates w) (trace w ++ [e])).

Definition enqueue (t : Task) : JS unit :=
  fun w => (Normal tt,
            mkWorld (requests w) (responses w) (immediates w ++ [t]) (trace w)).

(** ** The runtime calls of the source *)

(** [debug(fmt, arg)] *)
Definition debug (fmt : jsstring) (arg : option Z) : JS unit := log (EDebug fmt arg).

(** [defer(fn, ...args)]: [setImmediate], or [process.nextTick] where the
    former is missing; either way the call is queued. *)
Definition defer (t : Task) : JS unit := log (EDefer t) ;; enqueue t.

(** [req.socket.destroy()].  The flag is kept on the request through which
    the call is made and says that its connection has been destroyed; the
    response and the other requests that share the connection are not part
    of what the flag says. *)
Definition destroy (req : Handle) : JS unit :=
  log (EDestroy req) ;;
  r <- get_req req ;;
  set_req req (Req.with_socket_destroyed true r).

(** [res.statusCode = status] *)
Definition set_statusCode (res : Handle) (status : Z) : JS unit :=
  log (ESetStatus res status) ;;
  r <- get_res res ;;
  set_res res (Res.with_statusCode status r).

(** [res.setHeader(name, value)]: refused once the header block is out. *)
Definition setHeader (res : Handle) (name : jsstring) (v : HeaderValue) : JS unit :=
  log (ESetHeader res name v) ;;
  r <- get_res res ;;
  if Res._header r then throw HeadersSent
  else set_res res (Res.setHeader name v r).

(** [res.end(data)]: renders the header block if that is still to do, hands
    the data over and finishes the response; a finished response ignores
    the call.  Rendering the header block fails for a status outside the
    range 100 to 999, and then leaves the response as it is. *)
Definition end_ (res : Handle) (data : option (list N)) : JS unit :=
  log (EEnd res data) ;;
  r <- get_res res ;;
  if Res.finished r then ret tt
  else if negb (Res._header r) && Res.invalid_status r
       then throw (InvalidStatusCode (Res.statusCode r))
       else set_res res (Res.ended (match data with Some d => d | None => [] end) r).

(** [isFinished(req)] *)
Definition isFinished (r : Req.t) : bool := Req.finished r.

(** [unpipe(req)] *)
Definition unpipe (req : Handle) : JS unit :=
  log (EUnpipe req) ;;
  r <- get_req req ;;
  set_req req (Req.with_pipes [] r).

(** [onFinished(req, listener)]: the listener is called once, when the
    request has finished; for a request that already has, on a later turn. *)
Definition onFinished (req : Handle) (l : Listener) : JS unit :=
  log (EOnFinished req l) ;;
  r <- get_req req ;;
  if isFinished r then enqueue (Call_listener l)
  else set_req req (Req.with_listeners (Req.listeners r ++ [l]) r).

(** [req.resume()] *)
Definition resume (req : Handle) : JS unit :=
  log (EResume req) ;;
  r <- get_req req ;;
  set_req req (Req.with_flowing true r).

(** ** [index.js] *)

Section Finalhandler.

(** [http.STATUS_CODES], the reason phrase table of the runtime;
    [None] is the [undefined] of a code that has no entry. *)
Variable STATUS_CODES : Z -> option jsstring.

(** [accepts(req).types('html', 'text')], the negotiation done by the
    [accepts] package; [None] is its [false]. *)
Variable accepts_types : Req.t -> option jsstring.

(** [if (field) { status = field }] *)
Definition respect (field : option Z) (status : Z) : Z :=
  if truthy field then match field with Some v => v | None => status end
  else status.

(** Lines 70 to 94 of the returned function: status and message, from
    the error, the request and the status the response holds. *)
Definition resolve (stacktrace : option bool) (err : option Error.t)
           (req : Req.t) (status : Z) : Z * option jsstring :=
  match err with
  | Some e =>
    let status := respect (Error.statusCode e) status in
    let status := respect (Error.status e) status in
    let status :=
      if negb (truthy status) || (status <? 400)%Z then 500%Z else status in
    let msg :=
      if truthy stacktrace
      then jsor (Error.stack e) (Some (Error.toString e))
      else STATUS_CODES status in
    (status, msg)
  | None =>
    (404%Z,
     Some (js "Cannot " ++ Req.method req ++ js " "
             ++ String_ (jsor (Req.originalUrl req) (Some (Req.url req)))))
  end.

Definition constructHtmlBody (status : Z) (message : option jsstring) : Buffer :=
  let msg :=
    replace (js "  ") (js " &nbsp;")
      (replace (js "\n") (js "<br>") (escapeHtml message)) in
  let html :=
    js "<!doctype html>\n"
    ++ js "<html lang=en>\n"
    ++ js "<head>\n"
    ++ js "<meta charset=utf-8>\n"
    ++ js "<title>" ++ escapeHtml (STATUS_CODES status) ++ js "</title>\n"
    ++ js "</head>\n"
    ++ js "<body>\n"
    ++ msg ++ js "\n"
    ++ js "</body>\n" in
  mkBuffer (utf8 html) (js "text/html; charset=utf-8").

Definition constructTextBody (status : Z) (message : option jsstring) : Buffer :=
  let msg := String_ message ++ js "\n" in
  mkBuffer (utf8 msg) (js "text/plain; charset=utf-8").

Definition write (req res : Handle) (status : Z) (body : Buffer) : JS unit :=
  set_statusCode res status ;;
  setHeader res (js "X-Content-Type-Options") (HStr (js "nosniff")) ;;
  setHeader res (js "Content-Type") (HStr (type body)) ;;
  setHeader res (js "Content-Length") (HNum (Buffer_length body)) ;;
  rq <- get_req req ;;
  if jsstring_eqb (Req.method rq) (js "HEAD") then end_ res None
  else end_ res (Some (bytes body)).

Definition send (req res : Handle) (status : Z) (body : Buffer) : JS unit :=
  rq <- get_req req ;;
  if isFinished rq then write req res status body
  else
    unpipe req ;;
    onFinished req (WriteListener req res status body) ;;
    resume req.

Definition finalhandler (req res : Handle) (options : option Options.t)
  : option Error.t -> JS unit :=
  let opts := match options with Some o => o | None => Options.empty end in
  let onerror := Options.onerror opts in
  let stacktrace := jsor (Options.stacktrace opts) (Some false) in
  fun err =>
    rs <- get_res res ;;
    let status := Res.statusCode rs in
    if negb (truthy err) && Res._header rs then
      debug (js "cannot 404 after headers sent") None
    else
      rq <- get_req req ;;
      let '(status, msg) := resolve stacktrace err rq status in
      debug (js "default %s") (Some status) ;;
      match err, onerror with
      | Some e, Some fn => defer (Call_onerror fn e req res)
      | _, _ => ret tt
      end ;;
      rs <- get_res res ;;
      if Res._header rs then destroy req
      else
        let type := accepts_types rq in
        let constructBody :=
          match type with
          | Some t => if jsstring_eqb t (js "html")
                      then constructHtmlBody else constructTextBody
          | None => constructTextBody
          end in
        let body := constructBody status msg in
        send req res status body.

(** ** The environment of the handler *)

(** A listener registered with [onFinished] is the closure [write]. *)
Definition run_listener (l : Listener) : JS unit :=
  match l with
  | WriteListener req res status body => write req res status body
  end.

Fixpoint run_all {A} (f : A -> JS unit) (l : list A) : JS unit :=
  match l with
  | [] => ret tt
  | a :: l' => f a ;; run_all f l'
  end.

(** Modelled from the spec: the request stream reaches its finished state
    and the [on-finished] package, which is not part of the sources, calls
    the listeners registered for it, each of them once. *)
Definition emit_finished (req : Handle) : JS unit :=
  r <- get_req req ;;
  set_req req (Req.with_listeners [] (Req.with_finished true r)) ;;
  log (EFinished req) ;;
  run_all run_listener (Req.listeners r).

Definition run_task (t : Task) : JS unit :=
  match t with
  | Call_onerror fn err req res => log (EInvoke fn err req res)
  | Call_listener l => run_listener l
  end.

Definition take_immediates : JS (list Task) :=
  fun w => (Normal (immediates w),
            mkWorld (requests w) (responses w) [] (trace w)).

(** Modelled from the spec: a later turn of the event loop runs the calls
    queued by [defer]. *)
Definition turn : JS unit :=
  ts <- take_immediates ;;
  run_all run_task ts.

End Finalhandler.

(** ** Vocabulary of the properties *)

(** *** The parts of the returned function *)

(** [opts.stacktrace || false] and [opts.onerror] of lines 50 to 56. *)
Definition stacktrace_of (options : option Options.t) : option bool :=
  jsor (Options.stacktrace (match options with Some o => o | None => Options.empty end))
       (Some false).

Definition onerror_of (options : option Options.t) : option Callback :=
  Options.onerror (match options with Some o => o | None => Options.empty end).

(** The calls of the error callback that one invocation queues. *)
Definition scheduled (options : option Options.t) (err : option Error.t)
           (req res : Handle) : list Task :=
  match err, onerror_of options with
  | Some e, Some fn => [Call_onerror fn e req res]
  | _, _ => []
  end.

(** The status that the error asks for: the one that survives the two
    assignments of lines 73 to 80. *)
Definition explicit_status (e : Error.t) : option Z :=
  if truthy (Error.status e) then Error.status e
  else if truthy (Error.statusCode e) then Error.statusCode e
  else None.

(** Status and body that one invocation sends. *)
Definition response_for (STATUS_CODES : Z -> option jsstring)
           (accepts_types : Req.t -> option jsstring)
           (options : option Options.t) (err : option Error.t)
           (rq : Req.t) (status0 : Z) : Z * Buffer :=
  let '(status, msg) := resolve STATUS_CODES (stacktrace_of options) err rq status0 in
  (status,
   match accepts_types rq with
   | Some t => if jsstring_eqb t (js "html")
               then constructHtmlBody STATUS_CODES status msg
               else constructTextBody status msg
   | None => constructTextBody status msg
   end).

(** *** Steps and the worlds they lead to *)

(** A step that touches one response only. *)
Definition on_res (res : Handle) (f : Res.t -> Res.t) (evs : list Event)
           (w w' : World) : Prop :=
  requests w' = requests w
  /\ immediates w' = immediates w
  /\ trace w' = trace w ++ evs
  /\ (forall k, k <> res -> responses w' k = responses w k)
  /\ responses w' res = f (responses w res).

(** A step that touches one request only. *)
Definition on_req (req : Handle) (f : Req.t -> Req.t) (evs : list Event)
           (w w' : World) : Prop :=
  responses w' = responses w
  /\ immediates w' = immediates w
  /\ trace w' = trace w ++ evs
  /\ (forall k, k <> req -> requests w' k = requests w k)
  /\ requests w' req = f (requests w req).

(** What a call of [write] asks of the response, in order. *)
Definition write_payload (method : jsstring) (body : Buffer) : option (list N) :=
  if jsstring_eqb method (js "HEAD") then None else Some (bytes body).

Definition write_events (method : jsstring) (res : Handle) (status : Z)
           (body : Buffer) : list Event :=
  [ ESetStatus res status;
    ESetHeader res (js "X-Content-Type-Options") (HStr (js "nosniff"));
    ESetHeader res (js "Content-Type") (HStr (type body));
    ESetHeader res (js "Content-Length") (HNum (Buffer_length body));
    EEnd res (write_payload method body) ].

(** Whether the response refuses the write of a status: it is not finished
    and the status is outside the range 100 to 999. *)
Definition refused (status : Z) (r : Res.t) : bool :=
  negb (Res.finished r) && ((status <? 100) || (999 <? status))%Z.

(** What [write] makes of a response whose header block is not out. *)
Definition written (method : jsstring) (status : Z) (body : Buffer) (r : Res.t)
  : Res.t :=
  let r3 :=
    Res.setHeader (js "Content-Length") (HNum (Buffer_length body))
      (Res.setHeader (js "Content-Type") (HStr (type body))
         (Res.setHeader (js "X-Content-Type-Options") (HStr (js "nosniff"))
            (Res.with_statusCode status r))) in
  if Res.finished r3 then r3
  else if negb (Res._header r3) && Res.invalid_status r3 then r3
       else Res.ended (match write_payload method body with Some d => d | None => [] end)
                      r3.

(** The world when the invocation comes to the check of line 104. *)
Definition before_send (options : option Options.t) (err : option Error.t)
           (req res : Handle) (status : Z) (w : World) : World :=
  mkWorld (requests w) (responses w)
          (immediates w ++ scheduled options err req res)
          (trace w ++ EDebug (js "default %s") (Some status)
                 :: map EDefer (scheduled options err req res)).

(** What [send] makes of a request that has not finished. *)
Definition awaiting (l : Listener) (r : Req.t) : Req.t :=
  Req.with_flowing true
    (Req.with_listeners (Req.listeners r ++ [l]) (Req.with_pipes [] r)).

(** What the end of its stream makes of a request. *)
Definition finished_request (r : Req.t) : Req.t :=
  Req.with_listeners [] (Req.with_finished true r).

(** The events of one invocation, read off the world it starts in. *)
Definition invocation_events (STATUS_CODES : Z -> option jsstring)
           (accepts_types : Req.t -> option jsstring)
           (req res : Handle) (options : option Options.t)
           (err : option Error.t) (w : World) : list Event :=
  let rq := requests w req in
  let rs := responses w res in
  if negb (truthy err) && Res._header rs
  then [EDebug (js "cannot 404 after headers sent") None]
  else
    let sb := response_for STATUS_CODES accepts_types options err rq
                           (Res.statusCode rs) in
    EDebug (js "default %s") (Some (fst sb))
      :: map EDefer (scheduled options err req res)
      ++ (if Res._header rs then [EDestroy req]
          else if Req.finished rq
               then write_events (Req.method rq) res (fst sb) (snd sb)
               else [EUnpipe req;
                     EOnFinished req (WriteListener req res (fst sb) (snd sb));
                     EResume req]).

(** The events between the start of an invocation and its write. *)
Definition before_write (options : option Options.t) (err : option Error.t)
           (req res : Handle) (status : Z) (body : Buffer) (finished : bool)
  : list Event :=
  EDebug (js "default %s") (Some status)
    :: map EDefer (scheduled options err req res)
    ++ (if finished then []
        else [EUnpipe req; EOnFinished req (WriteListener req res status body);
              EResume req; EFinished req]).

(** The world once the request of an invocation has finished: the world
    after the invocation when the request had finished before it, and the
    world after the end of the request stream otherwise. *)
Definition settled (STATUS_CODES : Z -> option jsstring)
           (accepts_types : Req.t -> option jsstring)
           (req res : Handle) (options : option Options.t)
           (err : option Error.t) (w : World) : World :=
  let w1 := snd (finalhandler STATUS_CODES accepts_types req res options err w) in
  if Req.finished (requests w req) then w1 else snd (emit_finished req w1).

(** *** What a trace holds *)

(** The end calls that a trace holds for a response. *)
Definition is_end (res : Handle) (e : Event) : bool :=
  match e with EEnd r _ => Nat.eqb r res | _ => false end.

Definition ends (res : Handle) (tr : list Event) : nat :=
  length (filter (is_end res) tr).

(** The calls of the error callback that a trace holds. *)
Definition is_invoke (e : Event) : bool :=
  match e with EInvoke _ _ _ _ => true | _ => false end.

(** How an invocation completes: the one exception that can leave it is
    that of a write, made on the spot, of a status that the response
    refuses. *)
Definition invocation_outcome (STATUS_CODES : Z -> option jsstring)
           (accepts_types : Req.t -> option jsstring)
           (req res : Handle) (options : option Options.t)
           (err : option Error.t) (w : World) : Completion unit :=
  let rq := requests w req in
  let rs := responses w res in
  let status := fst (response_for STATUS_CODES accepts_types options err rq
                                  (Res.statusCode rs)) in
  if negb (Res._header rs) && Req.finished rq && refused status rs
  then Throw (InvalidStatusCode status)
  else Normal tt.

Definition is_defer (e : Event) : bool :=
  match e with EDefer _ => true | _ => false end.

(** *** Schedules of the environment *)

(** What the environment may do after an invocation: end the stream of a
    request, or run a turn of the event loop. *)
Inductive Env :=
| Finish (req : Handle)
| Turn.

Definition env_step (e : Env) : JS unit :=
  match e with
  | Finish req => emit_finished req
  | Turn => turn
  end.

Definition run_env (evs : list Env) : JS unit := run_all env_step evs.

Definition finishes (req : Handle) (evs : list Env) : bool :=
  existsb (fun e => match e with Finish r => Nat.eqb r req | Turn => false end) evs.

Definition is_call_onerror (t : Task) : bool :=
  match t with Call_onerror _ _ _ _ => true | Call_listener _ => false end.

Definition invoke_event (t : Task) : list Event :=
  match t with
  | Call_onerror fn err req res => [EInvoke fn err req res]
  | Call_listener _ => []
  end.

(** A world in which no write is waiting: no request has a listener, and
    the queue holds calls of error callbacks only. *)
Definition quiet (w : World) : Prop :=
  (forall k, Req.listeners (requests w k) = [])
  /\ forallb is_call_onerror (immediates w) = true.

(** A world in which one write is waiting for the end of [req]. *)
Definition pending (l : Listener) (req res : Handle) (w : World) : Prop :=
  Req.listeners (requests w req) = [l]
  /\ (forall k, k <> req -> Req.listeners (requests w k) = [])
  /\ forallb is_call_onerror (immediates w) = true
  /\ Res._header (responses w res) = false.

(** *** The HTML body in the words of the specification *)

(** One code unit of the message of an HTML body, before the pass over
    the pairs of spaces. *)
Definition html_unit (c : N) : jsstring :=
  if c =? 10 then js "<br>" else escape_unit c.

(** The message of an HTML body as the specification words it, in one pass
    over the message: a pair of spaces becomes a space and a non-breaking
    space, a newline becomes a line break, every other code unit is
    escaped. *)
Fixpoint html_message (s : jsstring) : jsstring :=
  match s with
  | [] => []
  | c :: s' =>
    if c =? 32 then
      match s' with
      | d :: s'' =>
        if d =? 32 then js " &nbsp;" ++ html_message s''
        else 32 :: html_message s'
      | [] => [32]
      end
    else if c =? 10 then js "<br>" ++ html_message s'
    else escape_unit c ++ html_message s'
  end.

(** The document shell as the specification words it: nine lines, each
    closed by a newline. *)
Definition html_document (title body : jsstring) : jsstring :=
  concat (map (fun line => line ++ [10])
    [ js "<!doctype html>";
      js "<html lang=en>";
      js "<head>";
      js "<meta charset=utf-8>";
      js "<title>" ++ title ++ js "</title>";
      js "</head>";
      js "<body>";
      body;
      js "</body>" ]).

(** *** Data for the examples *)

(** Modelled from the spec: the reason phrase table [http.STATUS_CODES] of
    the runtime, which is not part of the sources, at the codes whose
    phrase the specification quotes. *)
Definition reason_phrases (status : Z) : option jsstring :=
  if (status =? 403)%Z then Some (js "Forbidden")
  else if (status =? 404)%Z then Some (js "Not Found")
  else if (status =? 500)%Z then Some (js "Internal Server Error")
  else None.

(** [GET /missing], read to its end. *)
Definition get_missing : Req.t :=
  Req.mk (js "GET") None (js "/missing") true [] false [] false.

(** [HEAD /missing], and an upload that is still being read. *)
Definition head_missing : Req.t :=
  Req.mk (js "HEAD") None (js "/missing") true [] false [] false.

Definition post_upload : Req.t :=
  Req.mk (js "POST") (Some (js "/api/upload")) (js "/upload") false [1%nat] false
         [] false.

Definition prefers_html : Req.t -> option jsstring := fun _ => Some (js "html").

Definition prefers_text : Req.t -> option jsstring := fun _ => Some (js "text").

(** A response that nothing has been written to, and a world of one
    request and one response. *)
Definition unsent_response : Res.t := Res.mk 200 false [] false [].

Definition sent_response : Res.t := Res.mk 200 true [] false [].

Definition world_of (rq : Req.t) (rs : Res.t) : World :=
  mkWorld (fun _ => rq) (fun _ => rs) [] [].

(** *** Observations on rendered bodies *)

(** Whether a string opens with a space, and whether it holds two spaces
    in a row. *)
Definition head_space (s : jsstring) : bool :=
  match s with c :: _ => c =? 32 | [] => false end.

Fixpoint has_pair (s : jsstring) : bool :=
  match s with
  | [] => false
  | c :: s' => ((c =? 32) && head_space s') || has_pair s'
  end.

(** A code unit that means nothing to an HTML parser and is no newline. *)
Definition harmless (c : N) : bool :=
  negb (existsb (N.eqb c) [10; 34; 38; 39; 60; 62]).

(** The pieces an HTML message may be made of: a line break, a space with
    a non-breaking space, one of the five entities, or a harmless code
    unit. *)
Definition is_html_token (t : jsstring) : bool :=
  existsb (jsstring_eqb t)
    [ js "<br>"; js " &nbsp;"; js "&quot;"; js "&amp;"; js "&#39;"; js "&lt;";
      js "&gt;" ]
  || match t with [c] => harmless c | _ => false end.

(** The pieces of the message of an HTML body. *)
Fixpoint html_tokens (s : jsstring) : list jsstring :=
  match s with
  | [] => []
  | c :: s' =>
    if c =? 32 then
      match s' with
      | d :: s'' =>
        if d =? 32 then js " &nbsp;" :: html_tokens s''
        else [32] :: html_tokens s'
      | [] => [[32]]
      end
    else html_unit c :: html_tokens s'
  end.

(** Whether a string opens with a low surrogate. *)
Definition head_low (s : jsstring) : bool :=
  match s with d :: _ => is_low d | [] => false end.

(** The [msg] of [constructHtmlBody], lines 141 to 143. *)
Definition html_body_message (message : option jsstring) : jsstring :=
  replace (js "  ") (js " &nbsp;")
    (replace (js "\n") (js "<br>") (escapeHtml message)).

(** A response that holds headers of its own, nothing written yet. *)
Definition cookie_response : Res.t :=
  Res.mk 200 false
         [ (js "set-cookie", HStr (js "sid=1"));
           (js "content-type", HStr (js "application/json")) ]
         false [].

(** An error that asks for a status below the error range. *)
Definition odd_error : Error.t :=
  Error.mk (Some 302%Z) None (Some (js "Error: moved")) (js "Error: moved").

Example js_newline : js "a\nb" = [97; 10; 98].
Proof. reflexivity. Qed.

Example replace_br : replace (js "\n") (js "<br>") (js "a\n\nb") = js "a<br><br>b".
Proof. reflexivity. Qed.

Example replace_nbsp3 : replace (js "  ") (js " &nbsp;") (js "a   b") = js "a &nbsp; b".
Proof. reflexivity. Qed.

Example utf8_euro : utf8 [0x20AC] = [0xE2; 0x82; 0xAC].
Proof. reflexivity. Qed.

Example utf8_pair : utf8 [0xD83D; 0xDE00] = [0xF0; 0x9F; 0x98; 0x80].
Proof. reflexivity. Qed.

(** * Strings and bytes *)

Lemma jsstring_eqb_eq a b : jsstring_eqb a b = true <-> a = b.
Proof.
  revert b. induction a as [|x a IH]; intros [|y b]; cbn; split;
    try discriminate; try reflexivity.
  - intros H. apply andb_true_iff in H. destruct H as [Hx Hab].
    apply N.eqb_eq in Hx. apply IH in Hab. congruence.
  - intros H. injection H as -> ->. rewrite N.eqb_refl. cbn. apply IH. reflexivity.
Qed.

Lemma utf8_scalar_nonempty cp : utf8_scalar cp <> [].
Proof.
  unfold utf8_scalar.
  destruct (cp <? 0x80); [discriminate|].
  destruct (cp <? 0x800); [discriminate|].
  destruct (cp <? 0x10000); discriminate.
Qed.

Lemma app_nonempty {A} (a b : list A) : a <> [] -> a ++ b <> [].
Proof. destruct a; [contradiction | discriminate]. Qed.

Lemma utf8_nonempty s : s <> [] -> utf8 s <> [].
Proof.
  destruct s as [|c s']; [contradiction|]. intros _. cbn [utf8].
  destruct (is_high c).
  - destruct s' as [|d s'']; [discriminate|].
    destruct (is_low d); apply app_nonempty;
      [apply utf8_scalar_nonempty | discriminate].
  - destruct (is_low c); apply app_nonempty;
      [discriminate | apply utf8_scalar_nonempty].
Qed.

(** ASCII text is its own encoding. *)
Lemma utf8_ascii s : Forall (fun c => c < 128) s -> utf8 s = s.
Proof.
  induction 1 as [|c s Hc _ IH]; [reflexivity|].
  cbn [utf8]. unfold is_high, is_low, utf8_scalar.
  destruct (N.leb_spec 0xD800 c) as [H|_]; [lia|]. cbn [andb].
  destruct (N.leb_spec 0xDC00 c) as [H|_]; [lia|]. cbn [andb].
  destruct (N.ltb_spec c 0x80) as [_|H]; [|lia].
  rewrite IH. reflexivity.
Qed.

Lemma replace_all_nil p ps rep : replace_all p ps rep [] = [].
Proof. simp replace_all. reflexivity. Qed.

Lemma replace_all_cons p ps rep c s :
  replace_all p ps rep (c :: s)
  = if starts_with (p :: ps) (c :: s)
    then rep ++ replace_all p ps rep (skipn (length ps) s)
    else c :: replace_all p ps rep s.
Proof.
  simp replace_all. destruct (starts_with (p :: ps) (c :: s)); reflexivity.
Qed.

(** A pattern of one code unit is replaced unit by unit. *)
Lemma replace_all_single p rep s :
  replace_all p [] rep s = flat_map (fun c => if p =? c then rep else [c]) s.
Proof.
  induction s as [|c s IH]; [apply replace_all_nil|].
  rewrite replace_all_cons. cbn [starts_with length skipn flat_map].
  rewrite andb_true_r, IH. destruct (p =? c); reflexivity.
Qed.

Lemma flat_map_flat_map {A B C} (f : A -> list B) (g : B -> list C) l :
  flat_map g (flat_map f l) = flat_map (fun a => flat_map g (f a)) l.
Proof.
  induction l as [|a l IH]; [reflexivity|].
  cbn [flat_map]. rewrite flat_map_app, IH. reflexivity.
Qed.

Lemma escape_unit_cases c :
  (c = 34 \/ c = 38 \/ c = 39 \/ c = 60 \/ c = 62) \/ escape_unit c = [c].
Proof.
  unfold escape_unit.
  destruct (N.eqb_spec c 34); [left; tauto|].
  destruct (N.eqb_spec c 38); [left; tauto|].
  destruct (N.eqb_spec c 39); [left; tauto|].
  destruct (N.eqb_spec c 60); [left; tauto|].
  destruct (N.eqb_spec c 62); [left; tauto|].
  right. reflexivity.
Qed.

(** Line breaks go in where the newlines of the message were: escaping
    brings no newline of its own. *)
Lemma br_of_escaped c :
  flat_map (fun x => if 10 =? x then js "<br>" else [x]) (escape_unit c)
  = html_unit c.
Proof.
  unfold html_unit.
  destruct (escape_unit_cases c) as [H | H].
  - destruct H as [-> | [-> | [-> | [-> | ->]]]]; reflexivity.
  - rewrite H. cbn [flat_map]. rewrite app_nil_r, N.eqb_sym.
    destruct (c =? 10); reflexivity.
Qed.

Lemma replace_newlines_escaped s :
  replace (js "\n") (js "<br>") (flat_map escape_unit s) = flat_map html_unit s.
Proof.
  cbn [replace js]. rewrite replace_all_single, flat_map_flat_map.
  apply flat_map_ext. intros c. apply br_of_escaped.
Qed.

(** Escaping and line breaks bring no space of their own and drop no
    code unit. *)
Lemma html_unit_shape c :
  c <> 32 -> exists y ys, html_unit c = y :: ys /\ Forall (fun x => x <> 32) (y :: ys).
Proof.
  intros Hc. unfold html_unit.
  destruct (N.eqb_spec c 10) as [-> | _].
  - eexists _, _. split; [reflexivity|]. repeat constructor; discriminate.
  - destruct (escape_unit_cases c) as [H | H].
    + destruct H as [-> | [-> | [-> | [-> | ->]]]];
        (eexists _, _; split; [reflexivity|]; repeat constructor; discriminate).
    + rewrite H. exists c, []. split; [reflexivity|]. repeat constructor. exact Hc.
Qed.

Lemma replace_spaces_skip rep t u :
  Forall (fun x => x <> 32) t ->
  replace_all 32 [32] rep (t ++ u) = t ++ replace_all 32 [32] rep u.
Proof.
  induction 1 as [|x t Hx _ IH]; [reflexivity|].
  cbn [app]. rewrite replace_all_cons. cbn [starts_with].
  destruct (N.eqb_spec 32 x) as [E | _]; [symmetry in E; contradiction|].
  cbn [andb]. rewrite IH. reflexivity.
Qed.

Lemma replace_spaces_html s :
  replace_all 32 [32] (js " &nbsp;") (flat_map html_unit s) = html_message s.
Proof.
  assert (H : forall n s, (length s <= n)%nat ->
                replace_all 32 [32] (js " &nbsp;") (flat_map html_unit s)
                = html_message s).
  { clear s. induction n as [|n IH]; intros s Hn.
    - destruct s; [apply replace_all_nil | cbn in Hn; lia].
    - destruct s as [|c s']; [apply replace_all_nil|].
      cbn [length] in Hn. cbn [html_message flat_map].
      destruct (N.eqb_spec c 32) as [-> | Hc].
      + change (html_unit 32) with [32]. cbn [app].
        rewrite replace_all_cons.
        destruct s' as [|d s''].
        * cbn [flat_map starts_with andb N.eqb Pos.eqb].
          rewrite replace_all_nil. reflexivity.
        * destruct (N.eqb_spec d 32) as [-> | Hd].
          -- change (flat_map html_unit (32 :: s''))
               with (32 :: flat_map html_unit s'').
             cbn [starts_with andb N.eqb Pos.eqb length skipn].
             rewrite IH by (cbn [length] in Hn; lia). reflexivity.
          -- destruct (html_unit_shape d Hd) as (y & ys & Hy & Hall).
             assert (Hstart : starts_with [32; 32] (32 :: flat_map html_unit (d :: s''))
                              = false).
             { cbn [flat_map]. rewrite Hy. cbn [app starts_with].
               inversion Hall as [|? ? Hy32 _]; subst.
               destruct (N.eqb_spec 32 y) as [E | _];
                 [symmetry in E; contradiction | reflexivity]. }
             rewrite Hstart. rewrite IH by lia. reflexivity.
      + destruct (html_unit_shape c Hc) as (y & ys & Hy & Hall).
        rewrite <- Hy in Hall. rewrite replace_spaces_skip by exact Hall.
        rewrite IH by lia. unfold html_unit.
        destruct (c =? 10); reflexivity. }
  apply (H (length s)). lia.
Qed.

Lemma html_document_concat title body :
  js "<!doctype html>\n"
  ++ js "<html lang=en>\n"
  ++ js "<head>\n"
  ++ js "<meta charset=utf-8>\n"
  ++ js "<title>" ++ title ++ js "</title>\n"
  ++ js "</head>\n"
  ++ js "<body>\n"
  ++ body ++ js "\n"
  ++ js "</body>\n"
  = html_document title body.
Proof.
  unfold html_document. cbn [map concat]. rewrite <- !app_assoc. reflexivity.
Qed.

(** * Status and message resolution *)

Section Resolution.

Variable STATUS_CODES : Z -> option jsstring.

Lemma respect_Some v s : v <> 0%Z -> respect (Some v) s = v.
Proof.
  intros Hv. unfold respect, truthy, Truthy_optional, truthy, Truthy_number.
  destruct (Z.eqb_spec v 0); [contradiction | reflexivity].
Qed.

Lemma respect_falsy f s : truthy f = false -> respect f s = s.
Proof. intros H. unfold respect. rewrite H. reflexivity. Qed.

Lemma truthy_field (f : option Z) :
  truthy f = true -> exists v, f = Some v /\ v <> 0%Z.
Proof.
  destruct f as [v|]; cbn; [|discriminate].
  unfold truthy, Truthy_number. destruct (Z.eqb_spec v 0); [discriminate|].
  intros _. exists v. split; [reflexivity | assumption].
Qed.

(** The two assignments leave the explicit status of the error, or the
    status of the response when the error has none. *)
Lemma respect_explicit e s0 :
  respect (Error.status e) (respect (Error.statusCode e) s0)
  = match explicit_status e with Some v => v | None => s0 end.
Proof.
  unfold explicit_status.
  destruct (truthy (Error.status e)) eqn:Hs.
  - destruct (truthy_field _ Hs) as (v & Hv & Hnz).
    rewrite Hv. apply respect_Some, Hnz.
  - rewrite (respect_falsy _ _ Hs).
    destruct (truthy (Error.statusCode e)) eqn:Hc.
    + destruct (truthy_field _ Hc) as (v & Hv & Hnz).
      rewrite Hv. apply respect_Some, Hnz.
    + apply respect_falsy, Hc.
Qed.

Lemma resolve_error_status st e rq s0 :
  fst (resolve STATUS_CODES st (Some e) rq s0)
  = let s := match explicit_status e with Some v => v | None => s0 end in
    if (s <? 400)%Z then 500%Z else s.
Proof.
  cbn [resolve fst]. rewrite respect_explicit. cbv zeta.
  set (s := match explicit_status e with Some v => v | None => s0 end).
  unfold truthy, Truthy_number.
  destruct (Z.eqb_spec s 0) as [-> | Hnz]; [reflexivity|].
  reflexivity.
Qed.

(** C2 (as amended).  For an error whose [statusCode] and [status] are
    both truthy, the status is resolved from [status]: [statusCode] is
    assigned first and [status] second, so the later assignment wins; the
    resolved status is the value of [status] when that is at least 400,
    and 500 otherwise. *)
Theorem status_field_wins st e rq s0 sc s :
  Error.statusCode e = Some sc -> truthy sc = true ->
  Error.status e = Some s -> truthy s = true ->
  fst (resolve STATUS_CODES st (Some e) rq s0)
  = if (s <? 400)%Z then 500%Z else s.
Proof.
  intros _ _ Hs Ht. rewrite resolve_error_status.
  unfold explicit_status. rewrite Hs. cbn. rewrite Ht. reflexivity.
Qed.

(** C3 (as amended).  With an error signal, the explicit status of the
    error ([status] when truthy, else [statusCode] when truthy) is the
    resolved status when it is at least 400, and the resolved status is
    500 when it is below 400; when the error has no explicit status, or a
    zero one, the status that the response already holds is resolved the
    same way: kept when at least 400, replaced by 500 otherwise. *)
Theorem error_status_resolution st e rq s0 :
  fst (resolve STATUS_CODES st (Some e) rq s0)
  = match explicit_status e with
    | Some v => if (v <? 400)%Z then 500%Z else v
    | None => if (s0 <? 400)%Z then 500%Z else s0
    end.
Proof.
  rewrite resolve_error_status. destruct (explicit_status e); reflexivity.
Qed.

(** The message of an error, lines 87 to 90: the entry of the reason
    phrase table at the resolved status when the stack trace option is off,
    and otherwise the stack of the error when it has a non-empty one, and
    its string form when it has not. *)
Lemma resolve_message st e rq s0 :
  snd (resolve STATUS_CODES st (Some e) rq s0)
  = if truthy st
    then Some (match Error.stack e with
               | Some (c :: s) => c :: s
               | _ => Error.toString e
               end)
    else STATUS_CODES (fst (resolve STATUS_CODES st (Some e) rq s0)).
Proof.
  cbn [resolve fst snd]. destruct (truthy st); [|reflexivity].
  unfold jsor. destruct (Error.stack e) as [[|c s]|]; reflexivity.
Qed.

(** C7.  The HTML body is the UTF-8 encoding of the document shell:
    doctype, [<html lang=en>], a head with the charset and a title that
    holds the escaped string form of the reason phrase table's entry for
    the status (the escaped reason phrase, when the table has one), and a
    body element that holds the message with ampersands, quotes and angle
    brackets escaped, each newline turned into [<br>] and each pair of
    spaces, taken from the left, turned into a space and [&nbsp;]; its
    media type is [text/html; charset=utf-8]. *)
Theorem html_body_format status message :
  type (constructHtmlBody STATUS_CODES status message)
  = js "text/html; charset=utf-8"
  /\ bytes (constructHtmlBody STATUS_CODES status message)
     = utf8 (html_document
               (flat_map escape_unit (String_ (STATUS_CODES status)))
               (html_message (String_ message)))
  /\ forall phrase,
      STATUS_CODES status = Some phrase ->
      bytes (constructHtmlBody STATUS_CODES status message)
      = utf8 (html_document (flat_map escape_unit phrase)
                            (html_message (String_ message))).
Proof.
  assert (H : bytes (constructHtmlBody STATUS_CODES status message)
              = utf8 (html_document
                        (flat_map escape_unit (String_ (STATUS_CODES status)))
                        (html_message (String_ message)))).
  { unfold constructHtmlBody, escapeHtml. cbn [bytes].
    rewrite replace_newlines_escaped.
    change (replace (js "  ") (js " &nbsp;") (flat_map html_unit (String_ message)))
      with (replace_all 32 [32] (js " &nbsp;") (flat_map html_unit (String_ message))).
    rewrite replace_spaces_html, html_document_concat. reflexivity. }
  split; [reflexivity|]. split; [exact H|].
  intros phrase Hp. rewrite H, Hp. reflexivity.
Qed.

End Resolution.

(** C2, as stated, fails: with [statusCode] 404 and [status] 403 the
    resolved status is 403. *)
Lemma statusCode_priority_counterexample :
  ~ (forall tbl st e rq s0 sc s,
        Error.statusCode e = Some sc -> truthy sc = true ->
        Error.status e = Some s -> truthy s = true ->
        fst (resolve tbl st (Some e) rq s0) = sc).
Proof.
  intros H.
  specialize (H reason_phrases None
                (Error.mk (Some 404%Z) (Some 403%Z) None (js "Error"))
                get_missing 200%Z 404%Z 403%Z eq_refl eq_refl eq_refl eq_refl).
  vm_compute in H. discriminate H.
Qed.

Lemma status_field_wins_witness :
  fst (resolve reason_phrases None
         (Some (Error.mk (Some 404%Z) (Some 403%Z) None (js "Error")))
         get_missing 200%Z) = 403%Z.
Proof.
  exact (status_field_wins reason_phrases None
           (Error.mk (Some 404%Z) (Some 403%Z) None (js "Error"))
           get_missing 200%Z 404%Z 403%Z
           eq_refl eq_refl eq_refl eq_refl).
Defined.

(** C3, as stated, fails: an error without a status of its own, on a
    response whose status is already 404, resolves to 404 and not to 500. *)
Lemma absent_status_counterexample :
  ~ (forall tbl st e rq s0,
        Error.statusCode e = None -> Error.status e = None ->
        fst (resolve tbl st (Some e) rq s0) = 500%Z).
Proof.
  intros H.
  specialize (H reason_phrases None (Error.mk None None None (js "Error"))
                get_missing 404%Z eq_refl eq_refl).
  vm_compute in H. discriminate H.
Qed.

(** C10, as stated, fails: an error whose [statusCode] is 700 has a truthy
    status field of at least 400, and with a [status] of 302 beside it the
    resolved status is 500. *)
Lemma either_field_counterexample :
  ~ (forall tbl st e rq s0 v,
        Error.statusCode e = Some v \/ Error.status e = Some v ->
        truthy v = true -> (400 <= v)%Z ->
        fst (resolve tbl st (Some e) rq s0) = v).
Proof.
  intros H.
  assert (H700 : (400 <= 700)%Z) by (apply Z.leb_le; reflexivity).
  specialize (H reason_phrases None
                (Error.mk (Some 700%Z) (Some 302%Z) None (js "Error"))
                get_missing 200%Z 700%Z (or_introl eq_refl) eq_refl H700).
  vm_compute in H. discriminate H.
Qed.

Lemma resolve_at_least_400 tbl st err rq s0 :
  (400 <= fst (resolve tbl st err rq s0))%Z.
Proof.
  destruct err as [e|]; [|cbn; lia].
  rewrite resolve_error_status. cbv zeta.
  destruct (Z.ltb_spec (match explicit_status e with Some v => v | None => s0 end) 400);
    lia.
Qed.

Lemma refused_in_range status r :
  (100 <= status <= 999)%Z -> refused status r = false.
Proof.
  intros [Hlo Hhi]. unfold refused.
  destruct (Z.ltb_spec status 100); [lia|].
  destruct (Z.ltb_spec 999 status); [lia|].
  apply andb_false_r.
Qed.

(** * Running the effects *)

Section Effects.

Lemma upd_eq {A} h (v : A) f : upd h v f h = v.
Proof. unfold upd. rewrite Nat.eqb_refl. reflexivity. Qed.

Lemma upd_neq {A} h (v : A) f k : k <> h -> upd h v f k = f k.
Proof.
  intros H. unfold upd. destruct (Nat.eqb_spec k h); [contradiction | reflexivity].
Qed.

Lemma bind_ok {A B} (m : JS A) (k : A -> JS B) w {a} :
  fst (m w) = Normal a -> bind m k w = k a (snd (m w)).
Proof. intros H. unfold bind. destruct (m w) as [c w']. cbn in *. subst c. reflexivity. Qed.

Lemma bind_throw {A B} (m : JS A) (k : A -> JS B) w {e} :
  fst (m w) = Throw e -> bind m k w = (Throw e, snd (m w)).
Proof. intros H. unfold bind. destruct (m w) as [c w']. cbn in *. subst c. reflexivity. Qed.

Lemma on_res_trans {res f g evs evs' w w1 w2} :
  on_res res f evs w w1 -> on_res res g evs' w1 w2 ->
  on_res res (fun r => g (f r)) (evs ++ evs') w w2.
Proof.
  intros (Hq & Hi & Ht & Hk & Hr) (Hq' & Hi' & Ht' & Hk' & Hr').
  repeat split.
  - congruence.
  - congruence.
  - rewrite Ht', Ht, app_assoc. reflexivity.
  - intros k Hne. rewrite Hk', Hk by assumption. reflexivity.
  - rewrite Hr', Hr. reflexivity.
Qed.

Lemma set_statusCode_spec res status w :
  fst (set_statusCode res status w) = Normal tt
  /\ on_res res (Res.with_statusCode status) [ESetStatus res status]
            w (snd (set_statusCode res status w)).
Proof.
  split; [reflexivity|]. repeat split; cbn.
  - intros k Hk. apply upd_neq, Hk.
  - apply upd_eq.
Qed.

Lemma setHeader_spec res name v w :
  Res._header (responses w res) = false ->
  fst (setHeader res name v w) = Normal tt
  /\ on_res res (Res.setHeader name v) [ESetHeader res name v]
            w (snd (setHeader res name v w)).
Proof.
  intros H. unfold setHeader, bind, log, get_res.
  cbn [fst snd requests responses immediates trace]. rewrite H.
  split; [reflexivity|]. repeat split; cbn.
  - intros k Hk. apply upd_neq, Hk.
  - apply upd_eq.
Qed.

Lemma setHeader_sent res name v w :
  Res._header (responses w res) = true ->
  setHeader res name v w
  = (Throw HeadersSent,
     mkWorld (requests w) (responses w) (immediates w)
             (trace w ++ [ESetHeader res name v])).
Proof.
  intros H. unfold setHeader, bind, log, get_res.
  cbn [fst snd requests responses immediates trace]. rewrite H. reflexivity.
Qed.

Lemma end_spec res data w :
  fst (end_ res data w)
  = (let r := responses w res in
     if negb (Res.finished r) && (negb (Res._header r) && Res.invalid_status r)
     then Throw (InvalidStatusCode (Res.statusCode r))
     else Normal tt)
  /\ on_res res
            (fun r => if Res.finished r then r
                      else if negb (Res._header r) && Res.invalid_status r then r
                           else Res.ended (match data with Some d => d | None => [] end) r)
            [EEnd res data] w (snd (end_ res data w)).
Proof.
  unfold end_, bind, log, get_res.
  cbn [fst snd requests responses immediates trace].
  destruct (Res.finished (responses w res)) eqn:Hf.
  - split; [reflexivity|]. repeat split; cbn. rewrite Hf. reflexivity.
  - destruct (negb (Res._header (responses w res))
              && Res.invalid_status (responses w res)) eqn:Hr.
    + split; [reflexivity|]. repeat split; cbn. rewrite Hf, Hr. reflexivity.
    + split; [reflexivity|]. repeat split; cbn.
      * intros k Hk. apply upd_neq, Hk.
      * rewrite upd_eq, Hf, Hr. reflexivity.
Qed.

(** A write on a response whose header block is not out makes its five
    calls and fails, in the last of them, exactly when the response
    refuses the status. *)
Lemma write_run req res status body w :
  Res._header (responses w res) = false ->
  fst (write req res status body w)
  = (if refused status (responses w res)
     then Throw (InvalidStatusCode status) else Normal tt)
  /\ on_res res (written (Req.method (requests w req)) status body)
            (write_events (Req.method (requests w req)) res status body)
            w (snd (write req res status body w)).
Proof.
  intros Hh. unfold write.
  destruct (set_statusCode_spec res status w) as [E1 S1].
  rewrite (bind_ok _ _ _ E1). set (w1 := snd (set_statusCode _ _ w)) in *.
  assert (H1 : Res._header (responses w1 res) = false).
  { destruct S1 as (_ & _ & _ & _ & ->). exact Hh. }
  destruct (setHeader_spec res (js "X-Content-Type-Options") (HStr (js "nosniff")) w1 H1)
    as [E2 S2].
  rewrite (bind_ok _ _ _ E2). set (w2 := snd (setHeader _ _ _ w1)) in *.
  assert (H2 : Res._header (responses w2 res) = false).
  { destruct S2 as (_ & _ & _ & _ & ->). exact H1. }
  destruct (setHeader_spec res (js "Content-Type") (HStr (type body)) w2 H2) as [E3 S3].
  rewrite (bind_ok _ _ _ E3). set (w3 := snd (setHeader _ _ _ w2)) in *.
  assert (H3 : Res._header (responses w3 res) = false).
  { destruct S3 as (_ & _ & _ & _ & ->). exact H2. }
  destruct (setHeader_spec res (js "Content-Length") (HNum (Buffer_length body)) w3 H3)
    as [E4 S4].
  rewrite (bind_ok _ _ _ E4). set (w4 := snd (setHeader _ _ _ w3)) in *.
  pose proof (on_res_trans (on_res_trans (on_res_trans S1 S2) S3) S4) as S.
  unfold bind, get_req. cbn [fst snd].
  assert (Hrq : requests w4 req = requests w req).
  { destruct S as (-> & _). reflexivity. }
  rewrite Hrq.
  assert (Hend : forall data,
             write_payload (Req.method (requests w req)) body = data ->
             fst (end_ res data w4)
             = (if refused status (responses w res)
                then Throw (InvalidStatusCode status) else Normal tt)
             /\ on_res res (written (Req.method (requests w req)) status body)
                       (write_events (Req.method (requests w req)) res status body)
                       w (snd (end_ res data w4))).
  { intros data Hd. destruct (end_spec res data w4) as [E5 S5].
    split.
    - rewrite E5. cbv zeta. destruct S as (_ & _ & _ & _ & ->).
      cbn [Res.finished Res._header Res.statusCode Res.invalid_status Res.setHeader
           Res.with_headers Res.with_statusCode].
      rewrite Hh. unfold refused. reflexivity.
    - pose proof (on_res_trans S S5) as S'.
      unfold written, write_events. rewrite Hd. exact S'. }
  unfold write_payload in Hend.
  destruct (jsstring_eqb (Req.method (requests w req)) (js "HEAD"));
    apply Hend; reflexivity.
Qed.


End Effects.

(** * The returned function *)

Section Handler.

Variable STATUS_CODES : Z -> option jsstring.
Variable accepts_types : Req.t -> option jsstring.

Let handler := finalhandler STATUS_CODES accepts_types.
Let response := response_for STATUS_CODES accepts_types.

Lemma finalhandler_unsent req res options err w :
  Res._header (responses w res) = false ->
  let sb := response options err (requests w req) (Res.statusCode (responses w res)) in
  handler req res options err w
  = send req res (fst sb) (snd sb) (before_send options err req res (fst sb) w).
Proof.
  intros Hh sb. subst sb handler response.
  unfold finalhandler, response_for, before_send, scheduled, onerror_of.
  fold (stacktrace_of options).
  unfold bind at 1. unfold get_res at 1.
  cbn [fst snd]. rewrite Hh, andb_false_r.
  unfold bind at 1. unfold get_req at 1.
  destruct (resolve STATUS_CODES (stacktrace_of options) err (requests w req)
              (Res.statusCode (responses w res))) as [status msg].
  cbn [fst snd].
  destruct err as [e|];
    destruct (Options.onerror match options with Some o => o | None => Options.empty end)
      as [fn|];
    cbv [bind debug defer log enqueue ret get_res];
    cbn [fst snd requests responses immediates trace map];
    rewrite Hh; rewrite ?app_nil_r, <- ?app_assoc;
    destruct (accepts_types (requests w req)) as [t|];
    try destruct (jsstring_eqb t (js "html")); reflexivity.
Qed.

Lemma send_finished req res status body w :
  Req.finished (requests w req) = true ->
  send req res status body w = write req res status body w.
Proof.
  intros H. unfold send, bind at 1, get_req at 1. cbn [fst snd].
  unfold isFinished. rewrite H. reflexivity.
Qed.

Lemma send_unfinished req res status body w :
  Req.finished (requests w req) = false ->
  fst (send req res status body w) = Normal tt
  /\ on_req req (awaiting (WriteListener req res status body))
            [EUnpipe req; EOnFinished req (WriteListener req res status body);
             EResume req]
            w (snd (send req res status body w)).
Proof.
  intros H.
  assert (E : exists q,
             send req res status body w
             = (Normal tt,
                mkWorld q (responses w) (immediates w)
                        (trace w ++ [EUnpipe req;
                                     EOnFinished req (WriteListener req res status body);
                                     EResume req]))
             /\ q req = awaiting (WriteListener req res status body) (requests w req)
             /\ forall k, k <> req -> q k = requests w k).
  { eexists. split; [|split].
    - unfold send, bind at 1, get_req at 1. cbn [fst snd].
      unfold isFinished. rewrite H.
      cbv [bind unpipe onFinished resume log get_req set_req isFinished].
      cbn [fst snd requests responses immediates trace].
      rewrite !upd_eq. cbn [Req.finished Req.with_pipes]. rewrite H.
      cbn [fst snd requests responses immediates trace].
      rewrite <- !app_assoc. reflexivity.
    - rewrite !upd_eq. reflexivity.
    - intros k Hk. rewrite !upd_neq by assumption. reflexivity. }
  destruct E as (q & -> & Hq & Hk).
  split; [reflexivity|]. repeat split; assumption.
Qed.

Lemma finalhandler_sent req res options e w :
  Res._header (responses w res) = true ->
  let status := fst (resolve STATUS_CODES (stacktrace_of options) (Some e)
                       (requests w req) (Res.statusCode (responses w res))) in
  handler req res options (Some e) w
  = (Normal tt,
     mkWorld (upd req (Req.with_socket_destroyed true (requests w req)) (requests w))
             (responses w)
             (immediates w ++ scheduled options (Some e) req res)
             (trace w ++ EDebug (js "default %s") (Some status)
                    :: map EDefer (scheduled options (Some e) req res)
                    ++ [EDestroy req])).
Proof.
  intros Hh status. subst status handler.
  unfold finalhandler, scheduled, onerror_of.
  fold (stacktrace_of options).
  unfold bind at 1. unfold get_res at 1.
  cbn [fst snd truthy Truthy_optional Truthy_error negb andb].
  unfold bind at 1. unfold get_req at 1.
  destruct (resolve STATUS_CODES (stacktrace_of options) (Some e) (requests w req)
              (Res.statusCode (responses w res))) as [status msg].
  cbn [fst snd].
  destruct (Options.onerror match options with Some o => o | None => Options.empty end)
    as [fn|];
    cbv [bind debug defer log enqueue ret get_res get_req set_req destroy];
    cbn [fst snd requests responses immediates trace map];
    rewrite Hh; cbn [fst snd requests responses immediates trace map];
    rewrite ?app_nil_r, <- ?app_assoc; reflexivity.
Qed.

Lemma finalhandler_sent_no_error req res options w :
  Res._header (responses w res) = true ->
  handler req res options None w
  = (Normal tt,
     mkWorld (requests w) (responses w) (immediates w)
             (trace w ++ [EDebug (js "cannot 404 after headers sent") None])).
Proof.
  intros Hh. subst handler. unfold finalhandler.
  unfold bind at 1. unfold get_res at 1.
  cbn [fst snd truthy Truthy_optional negb andb]. rewrite Hh. reflexivity.
Qed.

Lemma response_status options err rq s0 :
  fst (response options err rq s0)
  = fst (resolve STATUS_CODES (stacktrace_of options) err rq s0).
Proof.
  subst response. unfold response_for.
  destruct (resolve STATUS_CODES (stacktrace_of options) err rq s0). reflexivity.
Qed.

Lemma before_send_header options err req res status w :
  responses (before_send options err req res status w) = responses w.
Proof. reflexivity. Qed.

Lemma before_send_requests options err req res status w :
  requests (before_send options err req res status w) = requests w.
Proof. reflexivity. Qed.

(** The returned function does what [invocation_events] lists and
    completes as [invocation_outcome] says, in every world. *)
Lemma finalhandler_run req res options err w :
  fst (handler req res options err w)
  = invocation_outcome STATUS_CODES accepts_types req res options err w
  /\ trace (snd (handler req res options err w))
     = trace w ++ invocation_events STATUS_CODES accepts_types req res options err w
  /\ immediates (snd (handler req res options err w))
     = immediates w ++ scheduled options err req res.
Proof.
  unfold invocation_events, invocation_outcome.
  destruct (Res._header (responses w res)) eqn:Hh.
  - cbn [negb andb]. destruct err as [e|].
    + rewrite (finalhandler_sent req res options e w Hh).
      cbn [truthy Truthy_optional Truthy_error negb andb fst snd trace immediates].
      fold response. rewrite response_status. repeat split.
    + rewrite (finalhandler_sent_no_error req res options w Hh).
      cbn [truthy Truthy_optional negb andb fst snd trace immediates].
      unfold scheduled. rewrite app_nil_r. repeat split.
  - rewrite andb_false_r. cbn [negb andb].
    rewrite (finalhandler_unsent req res options err w Hh). cbv zeta.
    fold response.
    set (sb := response options err (requests w req) (Res.statusCode (responses w res))).
    set (w0 := before_send options err req res (fst sb) w).
    destruct (Req.finished (requests w req)) eqn:Hf.
    + rewrite send_finished by exact Hf.
      destruct (write_run req res (fst sb) (snd sb) w0 Hh) as (E & _ & Hi & Ht & _).
      split; [exact E|]. rewrite Ht, Hi. subst w0. unfold before_send.
      cbn [trace immediates requests]. rewrite <- app_assoc. split; reflexivity.
    + destruct (send_unfinished req res (fst sb) (snd sb) w0 Hf) as (E & _ & Hi & Ht & _).
      split; [exact E|]. rewrite Ht, Hi. subst w0. unfold before_send.
      cbn [trace immediates requests]. rewrite <- app_assoc. split; reflexivity.
Qed.

Lemma scheduled_defer options err req res :
  filter is_defer (map EDefer (scheduled options err req res))
  = map EDefer (scheduled options err req res)
  /\ filter is_invoke (map EDefer (scheduled options err req res)) = []
  /\ forall r, filter (is_end r) (map EDefer (scheduled options err req res)) = [].
Proof.
  unfold scheduled. destruct err; destruct (onerror_of options); repeat split.
Qed.

Lemma invocation_defers req res options err w :
  filter is_defer (invocation_events STATUS_CODES accepts_types req res options err w)
  = map EDefer (scheduled options err req res).
Proof.
  unfold invocation_events.
  destruct (scheduled_defer options err req res) as (Hd & _ & _).
  destruct (negb (truthy err) && Res._header (responses w res)) eqn:Hc.
  - apply andb_true_iff in Hc. destruct Hc as [Hc _].
    destruct err; [discriminate Hc | reflexivity].
  - cbn [filter is_defer]. rewrite filter_app, Hd.
    destruct (Res._header (responses w res)); [apply app_nil_r|].
    destruct (Req.finished (requests w req)); apply app_nil_r.
Qed.

Lemma invocation_invokes req res options err w :
  filter is_invoke (invocation_events STATUS_CODES accepts_types req res options err w)
  = [].
Proof.
  unfold invocation_events.
  destruct (scheduled_defer options err req res) as (_ & Hi & _).
  destruct (negb (truthy err) && Res._header (responses w res)); [reflexivity|].
  cbn [filter is_invoke]. rewrite filter_app, Hi.
  destruct (Res._header (responses w res)); [reflexivity|].
  destruct (Req.finished (requests w req)); reflexivity.
Qed.

Lemma emit_finished_none req w :
  Req.listeners (requests w req) = [] ->
  emit_finished req w
  = (Normal tt,
     mkWorld (upd req (finished_request (requests w req)) (requests w))
             (responses w) (immediates w) (trace w ++ [EFinished req])).
Proof.
  intros Hl. unfold emit_finished. cbv [bind get_req set_req log].
  cbn [fst snd requests responses immediates trace]. rewrite Hl. reflexivity.
Qed.

Lemma bind_ret_tt (m : JS unit) w : bind m (fun _ => ret tt) w = m w.
Proof. unfold bind, ret. destruct (m w) as [[[]|e] w']; reflexivity. Qed.

Lemma emit_finished_single req res status body w :
  Req.listeners (requests w req) = [WriteListener req res status body] ->
  Res._header (responses w res) = false ->
  let w' := snd (emit_finished req w) in
  fst (emit_finished req w)
  = (if refused status (responses w res)
     then Throw (InvalidStatusCode status) else Normal tt)
  /\ trace w'
     = trace w ++ EFinished req
         :: write_events (Req.method (requests w req)) res status body
  /\ immediates w' = immediates w
  /\ responses w' res = written (Req.method (requests w req)) status body (responses w res)
  /\ (forall k, k <> res -> responses w' k = responses w k)
  /\ requests w' req = finished_request (requests w req)
  /\ (forall k, k <> req -> requests w' k = requests w k).
Proof.
  intros Hl Hh.
  set (w1 := mkWorld (upd req (finished_request (requests w req)) (requests w))
                     (responses w) (immediates w) (trace w ++ [EFinished req])).
  assert (E : emit_finished req w
              = bind (write req res status body) (fun _ => ret tt) w1).
  { unfold emit_finished. cbv [bind get_req set_req log].
    cbn [fst snd requests responses immediates trace]. rewrite Hl. reflexivity. }
  rewrite bind_ret_tt in E. cbv zeta. rewrite E.
  destruct (write_run req res status body w1 Hh) as (Ew & Hq & Hi & Ht & Hk & Hr).
  assert (Hm : Req.method (requests w1 req) = Req.method (requests w req)).
  { subst w1. cbn [requests]. rewrite upd_eq. reflexivity. }
  rewrite Hm in *.
  split; [exact Ew|].
  split; [rewrite Ht; subst w1; cbn [trace]; rewrite <- app_assoc; reflexivity|].
  split; [exact Hi|].
  split; [exact Hr|].
  split; [exact Hk|].
  rewrite Hq. subst w1. cbn [requests].
  split; [apply upd_eq | intros k Hne; apply upd_neq, Hne].
Qed.

Lemma ends_app res a b : (ends res (a ++ b) = ends res a + ends res b)%nat.
Proof. unfold ends. rewrite filter_app, length_app. reflexivity. Qed.

Lemma ends_write_events method res status body :
  ends res (write_events method res status body) = 1%nat.
Proof. unfold ends, write_events. cbn. rewrite Nat.eqb_refl. reflexivity. Qed.

Lemma written_spec method status body r :
  let r' := written method status body r in
  Res.statusCode r' = status
  /\ Res.getHeader (js "X-Content-Type-Options") r' = Some (HStr (js "nosniff"))
  /\ Res.getHeader (js "Content-Type") r' = Some (HStr (type body))
  /\ Res.getHeader (js "Content-Length") r' = Some (HNum (Buffer_length body))
  /\ (Res.finished r = false -> (100 <= status <= 999)%Z ->
      Res._header r' = true /\ Res.finished r' = true
      /\ Res.output r'
         = Res.output r
             ++ match write_payload method body with Some d => d | None => [] end).
Proof.
  unfold written, Res.invalid_status.
  cbn [Res.finished Res._header Res.statusCode Res.setHeader Res.with_headers
       Res.with_statusCode].
  destruct (Res.finished r) eqn:Hf; cbn [negb andb orb].
  - repeat split; discriminate.
  - destruct (negb (Res._header r) && ((status <? 100)%Z || (999 <? status)%Z)) eqn:Hr.
    + repeat split;
        match goal with
        | H : (100 <= status <= 999)%Z |- _ =>
          exfalso; destruct H;
          destruct (Z.ltb_spec status 100); [lia|];
          destruct (Z.ltb_spec 999 status); [lia|];
          rewrite andb_false_r in Hr; discriminate Hr
        end.
    + repeat split.
Qed.

(** A write without data leaves the output as it is, whether or not it
    goes through. *)
Lemma written_output_none method status body r :
  write_payload method body = None ->
  Res.output (written method status body r) = Res.output r.
Proof.
  intros Hp. unfold written. rewrite Hp.
  cbn [Res.finished Res._header Res.setHeader Res.with_headers Res.with_statusCode].
  destruct (Res.finished r); [reflexivity|].
  destruct (negb (Res._header r) && _); [reflexivity|].
  cbn. apply app_nil_r.
Qed.

(** Whether a write finishes a response that was not finished and whose
    header block was not out: it does unless the status is refused. *)
Lemma written_finished method status body r :
  Res._header r = false -> Res.finished r = false ->
  Res.finished (written method status body r)
  = negb ((status <? 100) || (999 <? status))%Z.
Proof.
  intros Hh Hf. unfold written, Res.invalid_status.
  cbn [Res.finished Res._header Res.statusCode Res.setHeader Res.with_headers
       Res.with_statusCode].
  rewrite Hf, Hh. cbn [negb andb].
  destruct ((status <? 100) || (999 <? status))%Z; [exact Hf | reflexivity].
Qed.

Lemma ends_prelude res options err req status :
  ends res (EDebug (js "default %s") (Some status)
              :: map EDefer (scheduled options err req res)) = 0%nat.
Proof.
  unfold ends. cbn [filter is_end].
  destruct (scheduled_defer options err req res) as (_ & _ & He).
  rewrite He. reflexivity.
Qed.

(** ** Any schedule of the environment *)

Lemma world_eta w :
  mkWorld (requests w) (responses w) (immediates w) (trace w) = w.
Proof. destruct w. reflexivity. Qed.

Lemma run_onerror_tasks ts :
  forall w,
    forallb is_call_onerror ts = true ->
    run_all run_task ts w
    = (Normal tt,
       mkWorld (requests w) (responses w) (immediates w)
               (trace w ++ flat_map invoke_event ts)).
Proof.
  induction ts as [|t ts IH]; intros w H.
  - cbn. rewrite app_nil_r, world_eta. reflexivity.
  - cbn [forallb] in H. apply andb_true_iff in H. destruct H as [Ht Hts].
    destruct t as [fn e rq rs | l]; [|discriminate Ht].
    cbn [run_all run_task]. unfold bind at 1, log at 1.
    rewrite (IH _ Hts). cbn [requests responses immediates trace flat_map invoke_event].
    rewrite <- app_assoc. reflexivity.
Qed.

Lemma turn_run w :
  forallb is_call_onerror (immediates w) = true ->
  turn w
  = (Normal tt,
     mkWorld (requests w) (responses w) []
             (trace w ++ flat_map invoke_event (immediates w))).
Proof.
  intros H. unfold turn, bind, take_immediates.
  rewrite (run_onerror_tasks _ _ H). reflexivity.
Qed.

Lemma ends_invokes res ts : ends res (flat_map invoke_event ts) = 0%nat.
Proof.
  induction ts as [|t ts IH]; [reflexivity|].
  cbn [flat_map]. rewrite ends_app, IH. destruct t; reflexivity.
Qed.

Lemma run_env_cons e evs w w' :
  env_step e w = (Normal tt, w') ->
  run_env (e :: evs) w = run_env evs w'.
Proof.
  intros H. unfold run_env. cbn [run_all]. unfold bind. rewrite H. reflexivity.
Qed.

Lemma finished_quiet k w :
  quiet w ->
  quiet (mkWorld (upd k (finished_request (requests w k)) (requests w))
                 (responses w) (immediates w) (trace w ++ [EFinished k])).
Proof.
  intros [Hl Hq]. split; [|exact Hq].
  intros k'. cbn [requests]. unfold upd.
  destruct (Nat.eqb k' k); [reflexivity | apply Hl].
Qed.

(** In a quiet world nothing the environment does ends a response. *)
Lemma quiet_runs res evs :
  forall w,
    quiet w ->
    fst (run_env evs w) = Normal tt
    /\ ends res (trace (snd (run_env evs w))) = ends res (trace w).
Proof.
  induction evs as [|e evs IH]; intros w Hq.
  - split; reflexivity.
  - destruct e as [k|].
    + pose proof (emit_finished_none k w (proj1 Hq k)) as E.
      rewrite (run_env_cons (Finish k) evs w _ E).
      destruct (IH _ (finished_quiet k w Hq)) as [E' Hends].
      split; [exact E'|]. rewrite Hends. cbn [trace].
      rewrite ends_app. unfold ends at 2. cbn. lia.
    + pose proof (turn_run w (proj2 Hq)) as E.
      rewrite (run_env_cons Turn evs w _ E).
      assert (Hq' : quiet (mkWorld (requests w) (responses w) []
                             (trace w ++ flat_map invoke_event (immediates w)))).
      { split; [exact (proj1 Hq) | reflexivity]. }
      destruct (IH _ Hq') as [E' Hends].
      split; [exact E'|]. rewrite Hends. cbn [trace].
      rewrite ends_app, ends_invokes. lia.
Qed.

(** While a write is waiting, it is made when its request finishes, and
    then only. *)
Lemma pending_runs req res status body evs :
  (100 <= status <= 999)%Z ->
  forall w,
    pending (WriteListener req res status body) req res w ->
    fst (run_env evs w) = Normal tt
    /\ ends res (trace (snd (run_env evs w)))
       = (ends res (trace w) + if finishes req evs then 1 else 0)%nat.
Proof.
  intros Hrange.
  induction evs as [|e evs IH]; intros w (Hl & Ho & Hq & Hh).
  - split; [reflexivity|]. cbn. lia.
  - destruct e as [k|].
    + destruct (Nat.eqb_spec k req) as [-> | Hk].
      * destruct (emit_finished_single req res status body w Hl Hh)
          as (E & Ht & Hi & _ & _ & Hrq & Hrk).
        cbv zeta in E, Ht, Hi, Hrq, Hrk.
        rewrite (refused_in_range _ _ Hrange) in E.
        assert (E' : env_step (Finish req) w = (Normal tt, snd (emit_finished req w))).
        { cbn [env_step]. rewrite <- E. apply surjective_pairing. }
        rewrite (run_env_cons (Finish req) evs w _ E').
        assert (Hq' : quiet (snd (emit_finished req w))).
        { split; [|rewrite Hi; exact Hq].
          intros k. destruct (Nat.eqb_spec k req) as [-> | Hne].
          - rewrite Hrq. reflexivity.
          - rewrite (Hrk k Hne). apply Ho, Hne. }
        destruct (quiet_runs res evs _ Hq') as [E2 Hends].
        split; [exact E2|]. rewrite Hends, Ht.
        change (EFinished req :: write_events (Req.method (requests w req)) res status body)
          with ([EFinished req]
                  ++ write_events (Req.method (requests w req)) res status body).
        rewrite !ends_app, ends_write_events.
        cbn [finishes existsb]. rewrite Nat.eqb_refl. cbn [orb].
        unfold ends at 2. cbn. lia.
      * pose proof (emit_finished_none k w (Ho k Hk)) as E.
        rewrite (run_env_cons (Finish k) evs w _ E).
        set (w' := mkWorld _ _ _ _) in *.
        assert (Hp : pending (WriteListener req res status body) req res w').
        { subst w'. repeat split; cbn [requests responses immediates].
          - rewrite upd_neq by (intros ->; contradiction). exact Hl.
          - intros k' Hk'. unfold upd.
            destruct (Nat.eqb k' k); [reflexivity | apply Ho, Hk'].
          - exact Hq.
          - exact Hh. }
        destruct (IH _ Hp) as [E2 Hends].
        split; [exact E2|]. rewrite Hends. subst w'. cbn [trace].
        rewrite ends_app. cbn [finishes existsb].
        destruct (Nat.eqb_spec k req) as [-> | _]; [contradiction|]. cbn [orb].
        unfold ends at 2. cbn. fold (finishes req evs). lia.
    + pose proof (turn_run w Hq) as E.
      rewrite (run_env_cons Turn evs w _ E).
      set (w' := mkWorld _ _ _ _) in *.
      assert (Hp : pending (WriteListener req res status body) req res w').
      { subst w'. repeat split; assumption. }
      destruct (IH _ Hp) as [E2 Hends].
      split; [exact E2|]. rewrite Hends. subst w'. cbn [trace].
      rewrite ends_app, ends_invokes. cbn [finishes existsb orb].
      fold (finishes req evs). lia.
Qed.

Lemma scheduled_onerror options err req res :
  forallb is_call_onerror (scheduled options err req res) = true.
Proof. unfold scheduled. destruct err; destruct (onerror_of options); reflexivity. Qed.

(** After an invocation that comes to the send step in a quiet world, and
    whatever the environment then does, the response has been ended once
    if the request had finished or has finished since, and not at all
    otherwise. *)
Lemma response_range options err rq s0 :
  (fst (response options err rq s0) <= 999)%Z ->
  (100 <= fst (response options err rq s0) <= 999)%Z.
Proof.
  intros H. split; [|exact H].
  rewrite response_status.
  pose proof (resolve_at_least_400 STATUS_CODES (stacktrace_of options) err rq s0).
  lia.
Qed.

Lemma invocation_outcome_ok req res options err w :
  (fst (response options err (requests w req) (Res.statusCode (responses w res)))
   <= 999)%Z ->
  invocation_outcome STATUS_CODES accepts_types req res options err w = Normal tt.
Proof.
  intros H. unfold invocation_outcome. fold response.
  rewrite (refused_in_range _ _ (response_range _ _ _ _ H)).
  rewrite andb_false_r. reflexivity.
Qed.

Lemma finalhandler_schedule req res options err w evs :
  Res._header (responses w res) = false ->
  quiet w ->
  (fst (response options err (requests w req) (Res.statusCode (responses w res)))
   <= 999)%Z ->
  let w1 := snd (handler req res options err w) in
  fst (run_env evs w1) = Normal tt
  /\ ends res (trace (snd (run_env evs w1)))
     = (ends res (trace w)
        + if Req.finished (requests w req) || finishes req evs then 1 else 0)%nat.
Proof.
  intros Hh [Hl Hq] Hmax w1.
  pose proof (response_range _ _ _ _ Hmax) as Hrange.
  pose proof (finalhandler_unsent req res options err w Hh) as Hrun.
  cbv zeta in Hrun.
  set (status := fst (response options err (requests w req)
                        (Res.statusCode (responses w res)))) in *.
  set (body := snd (response options err (requests w req)
                      (Res.statusCode (responses w res)))) in *.
  set (w0 := before_send options err req res status w) in Hrun.
  assert (Hq0 : forallb is_call_onerror (immediates w0) = true).
  { subst w0. unfold before_send. cbn [immediates].
    rewrite forallb_app, Hq, scheduled_onerror. reflexivity. }
  assert (Hends0 : ends res (trace w0) = ends res (trace w)).
  { subst w0. unfold before_send. cbn [trace].
    rewrite ends_app, ends_prelude. lia. }
  destruct (Req.finished (requests w req)) eqn:Hf; cbn [orb].
  - assert (Hw : handler req res options err w = write req res status body w0).
    { rewrite Hrun. apply send_finished. exact Hf. }
    destruct (write_run req res status body w0 Hh) as (_ & Hrq & Hi & Ht & _).
    rewrite <- Hw in Hrq, Hi, Ht. fold w1 in Hrq, Hi, Ht.
    assert (Hq1 : quiet w1).
    { split; [intros k; rewrite Hrq; apply Hl | rewrite Hi; exact Hq0]. }
    destruct (quiet_runs res evs w1 Hq1) as [E Hends].
    split; [exact E|]. rewrite Hends, Ht, ends_app, ends_write_events, Hends0.
    reflexivity.
  - destruct (send_unfinished req res status body w0 Hf)
      as (_ & Hrs & Hi & Ht & Hk & Hrq).
    rewrite <- Hrun in Hrs, Hi, Ht, Hk, Hrq. fold w1 in Hrs, Hi, Ht, Hk, Hrq.
    assert (Hp : pending (WriteListener req res status body) req res w1).
    { repeat split.
      - rewrite Hrq. cbn. change (requests w0 req) with (requests w req).
        rewrite Hl. reflexivity.
      - intros k Hne. rewrite (Hk k Hne). apply Hl.
      - rewrite Hi. exact Hq0.
      - rewrite Hrs. exact Hh. }
    destruct (pending_runs req res status body evs Hrange w1 Hp) as [E Hends].
    split; [exact E|]. rewrite Hends, Ht, ends_app, Hends0.
    unfold ends at 2. cbn. lia.
Qed.

(** C1 (as amended).  An invocation that comes to the send step (the header
    block is not out yet), on a request that no other write is waiting
    for, and with a resolved status that the response accepts (at most
    999), writes status, headers and body once, and only when the request
    has finished.  On a finished request the write is part of the
    invocation.  Otherwise the invocation writes nothing: it unpipes the
    request, registers the write for the end of the request and resumes the
    request; when the request then finishes, the write happens, once, and a
    further end of the stream does not repeat it.  In a world where no other
    write is waiting this holds for every schedule of stream ends and event
    loop turns that follows the invocation: the response is ended once if
    the request had finished or finishes in the schedule, and not at all
    otherwise. *)
Theorem write_once_when_finished req res options err w :
  Res._header (responses w res) = false ->
  Req.listeners (requests w req) = [] ->
  (fst (response options err (requests w req) (Res.statusCode (responses w res)))
   <= 999)%Z ->
  let rq := requests w req in
  let status := fst (response options err rq (Res.statusCode (responses w res))) in
  let body := snd (response options err rq (Res.statusCode (responses w res))) in
  let prelude :=
    EDebug (js "default %s") (Some status)
      :: map EDefer (scheduled options err req res) in
  let l := WriteListener req res status body in
  let w1 := snd (handler req res options err w) in
  fst (handler req res options err w) = Normal tt
  /\ (Req.finished rq = true ->
      trace w1 = trace w ++ prelude ++ write_events (Req.method rq) res status body
      /\ ends res (trace w1) = S (ends res (trace w))
      /\ responses w1 res = written (Req.method rq) status body (responses w res))
  /\ (Req.finished rq = false ->
      trace w1 = trace w ++ prelude ++ [EUnpipe req; EOnFinished req l; EResume req]
      /\ ends res (trace w1) = ends res (trace w)
      /\ responses w1 = responses w
      /\ Req.pipes (requests w1 req) = []
      /\ Req.listeners (requests w1 req) = [l]
      /\ Req.flowing (requests w1 req) = true
      /\ let w2 := snd (emit_finished req w1) in
         fst (emit_finished req w1) = Normal tt
         /\ trace w2
            = trace w1 ++ EFinished req :: write_events (Req.method rq) res status body
         /\ ends res (trace w2) = S (ends res (trace w))
         /\ responses w2 res = written (Req.method rq) status body (responses w res)
         /\ let w3 := snd (emit_finished req w2) in
            fst (emit_finished req w2) = Normal tt
            /\ trace w3 = trace w2 ++ [EFinished req]
            /\ responses w3 = responses w2)
  /\ (quiet w ->
      forall evs,
        fst (run_env evs w1) = Normal tt
        /\ ends res (trace (snd (run_env evs w1)))
           = (ends res (trace w)
              + if Req.finished rq || finishes req evs then 1 else 0)%nat).
Proof.
  intros Hh Hl Hmax rq status body prelude l w1.
  pose proof (response_range _ _ _ _ Hmax) as Hrange. fold rq status in Hrange.
  destruct (finalhandler_run req res options err w) as (E & _ & _).
  rewrite (invocation_outcome_ok req res options err w Hmax) in E.
  split; [exact E|].
  cut ((Req.finished rq = true ->
        trace w1 = trace w ++ prelude ++ write_events (Req.method rq) res status body
        /\ ends res (trace w1) = S (ends res (trace w))
        /\ responses w1 res = written (Req.method rq) status body (responses w res))
       /\ (Req.finished rq = false ->
           trace w1 = trace w ++ prelude ++ [EUnpipe req; EOnFinished req l; EResume req]
           /\ ends res (trace w1) = ends res (trace w)
           /\ responses w1 = responses w
           /\ Req.pipes (requests w1 req) = []
           /\ Req.listeners (requests w1 req) = [l]
           /\ Req.flowing (requests w1 req) = true
           /\ let w2 := snd (emit_finished req w1) in
              fst (emit_finished req w1) = Normal tt
              /\ trace w2
                 = trace w1 ++ EFinished req
                     :: write_events (Req.method rq) res status body
              /\ ends res (trace w2) = S (ends res (trace w))
              /\ responses w2 res
                 = written (Req.method rq) status body (responses w res)
              /\ let w3 := snd (emit_finished req w2) in
                 fst (emit_finished req w2) = Normal tt
                 /\ trace w3 = trace w2 ++ [EFinished req]
                 /\ responses w3 = responses w2)).
  { intros [H1 H2]. split; [exact H1|]. split; [exact H2|].
    intros Hq evs.
    apply (finalhandler_schedule req res options err w evs Hh Hq Hmax). }
  pose proof (finalhandler_unsent req res options err w Hh) as Hrun.
  cbv zeta in Hrun. fold rq status body in Hrun.
  set (w0 := before_send options err req res status w) in Hrun.
  assert (Ht0 : trace w0 = trace w ++ prelude) by reflexivity.
  assert (Hends : forall evs,
             ends res ((trace w ++ prelude) ++ evs)
             = (ends res (trace w) + ends res evs)%nat).
  { intros evs. rewrite !ends_app. subst prelude. rewrite ends_prelude. lia. }
  split; intros Hf.
  - subst w1. rewrite Hrun, send_finished by exact Hf.
    destruct (write_run req res status body w0 Hh) as (_ & _ & _ & Ht & _ & Hr).
    rewrite Ht, Ht0. split; [symmetry; apply app_assoc|].
    split; [|exact Hr].
    rewrite Hends, ends_write_events. lia.
  - destruct (send_unfinished req res status body w0 Hf) as (_ & Hrs & _ & Ht & _ & Hq).
    fold l in Ht, Hq. rewrite <- Hrun in Ht, Hq, Hrs. fold w1 in Ht, Hq, Hrs.
    change (requests w0 req) with rq in Hq.
    assert (Hm : Req.method (requests w1 req) = Req.method rq).
    { rewrite Hq. reflexivity. }
    assert (Hl1 : Req.listeners (requests w1 req) = [l]).
    { rewrite Hq. cbn. fold rq in Hl. rewrite Hl. reflexivity. }
    assert (Hh1 : Res._header (responses w1 res) = false).
    { rewrite Hrs. exact Hh. }
    split; [rewrite Ht, Ht0; symmetry; apply app_assoc|].
    split; [rewrite Ht, Ht0, Hends; unfold ends; cbn; lia|].
    split; [exact Hrs|].
    split; [rewrite Hq; reflexivity|].
    split; [exact Hl1|].
    split; [rewrite Hq; reflexivity|].
    destruct (emit_finished_single req res status body w1 Hl1 Hh1)
      as (E2 & Ht2 & _ & Hr2 & _ & Hq2 & _).
    cbv zeta. rewrite Hm in Ht2, Hr2.
    rewrite (refused_in_range _ _ Hrange) in E2.
    split; [exact E2|].
    split; [exact Ht2|].
    split.
    { rewrite Ht2, Ht, Ht0, <- app_assoc, Hends.
      change (EFinished req :: write_events (Req.method rq) res status body)
        with ([EFinished req] ++ write_events (Req.method rq) res status body).
      rewrite !ends_app, ends_write_events. unfold ends. cbn. lia. }
    split; [rewrite Hr2, Hrs; reflexivity|].
    rewrite emit_finished_none; [repeat split|].
    rewrite Hq2. reflexivity.
Qed.

(** Once the request has finished, the response is written, whichever way
    the invocation took. *)
Lemma finalhandler_settles req res options err w :
  Res._header (responses w res) = false ->
  Req.listeners (requests w req) = [] ->
  let rq := requests w req in
  let status := fst (response options err rq (Res.statusCode (responses w res))) in
  let body := snd (response options err rq (Res.statusCode (responses w res))) in
  let ws := settled STATUS_CODES accepts_types req res options err w in
  responses ws res = written (Req.method rq) status body (responses w res)
  /\ trace ws
     = trace w ++ before_write options err req res status body (Req.finished rq)
         ++ write_events (Req.method rq) res status body.
Proof.
  intros Hh Hl rq status body ws. subst ws. unfold settled, before_write.
  fold handler.
  pose proof (finalhandler_unsent req res options err w Hh) as Hrun.
  cbv zeta in Hrun. fold rq status body in Hrun.
  set (w0 := before_send options err req res status w) in Hrun.
  fold rq. destruct (Req.finished rq) eqn:Hf.
  - rewrite Hrun, send_finished by exact Hf.
    destruct (write_run req res status body w0 Hh) as (_ & _ & _ & Ht & _ & Hr).
    split; [exact Hr|]. rewrite Ht. subst w0. unfold before_send. cbn [trace].
    rewrite app_nil_r, <- app_assoc. reflexivity.
  - destruct (send_unfinished req res status body w0 Hf) as (_ & Hrs & _ & Ht & _ & Hq).
    rewrite <- Hrun in Ht, Hq, Hrs.
    set (w1 := snd (handler req res options err w)) in *.
    change (requests w0 req) with rq in Hq.
    assert (Hl1 : Req.listeners (requests w1 req) = [WriteListener req res status body]).
    { rewrite Hq. cbn. fold rq in Hl. rewrite Hl. reflexivity. }
    assert (Hh1 : Res._header (responses w1 res) = false).
    { rewrite Hrs. exact Hh. }
    destruct (emit_finished_single req res status body w1 Hl1 Hh1)
      as (_ & Ht2 & _ & Hr2 & _).
    assert (Hm : Req.method (requests w1 req) = Req.method rq).
    { rewrite Hq. reflexivity. }
    rewrite Hm in Ht2, Hr2.
    split; [rewrite Hr2, Hrs; reflexivity|].
    rewrite Ht2, Ht. subst w0. unfold before_send. cbn [trace].
    rewrite <- !app_assoc. f_equal.
    cbn [app]. rewrite <- ?app_assoc. reflexivity.
Qed.

Lemma response_nonempty options err rq s0 :
  (0 < Buffer_length (snd (response options err rq s0)))%Z.
Proof.
  assert (H : bytes (snd (response options err rq s0)) <> []).
  { subst response. unfold response_for.
    destruct (resolve STATUS_CODES (stacktrace_of options) err rq s0) as [status msg].
    cbn [snd].
    assert (Ht : bytes (constructTextBody status msg) <> []).
    { unfold constructTextBody. cbn [bytes]. apply utf8_nonempty.
      intros H. apply app_eq_nil in H. destruct H as [_ H]. discriminate H. }
    destruct (accepts_types rq) as [t|]; [|exact Ht].
    destruct (jsstring_eqb t (js "html")); [|exact Ht].
    unfold constructHtmlBody. cbn [bytes]. apply utf8_nonempty. discriminate. }
  unfold Buffer_length. destruct (bytes (snd (response options err rq s0)));
    [contradiction | cbn [length]; lia].
Qed.

Lemma response_type options err rq s0 :
  type (snd (response options err rq s0))
  = if match accepts_types rq with
       | Some t => jsstring_eqb t (js "html")
       | None => false
       end
    then js "text/html; charset=utf-8"
    else js "text/plain; charset=utf-8".
Proof.
  subst response. unfold response_for.
  destruct (resolve STATUS_CODES (stacktrace_of options) err rq s0) as [status msg].
  cbn [snd]. destruct (accepts_types rq) as [t|]; [|reflexivity].
  destruct (jsstring_eqb t (js "html")); reflexivity.
Qed.

(** C4.  Without an error, on a response whose header block is not out, the
    status is 404 and the message is "Cannot ", the method, a space and the
    URL, the original URL of the request when it has one and its current
    URL otherwise; once the request has finished the response holds status
    404.  For a GET of "/missing" negotiated to anything but HTML, whatever
    the options, the body is "Cannot GET /missing" and a newline, sent as
    plain text. *)
Theorem not_found req res options w :
  Res._header (responses w res) = false ->
  Req.listeners (requests w req) = [] ->
  let rq := requests w req in
  let url := match Req.originalUrl rq with
             | Some (c :: u) => c :: u
             | _ => Req.url rq
             end in
  let ws := settled STATUS_CODES accepts_types req res options None w in
  resolve STATUS_CODES (stacktrace_of options) None rq
          (Res.statusCode (responses w res))
  = (404%Z, Some (js "Cannot " ++ Req.method rq ++ js " " ++ url))
  /\ Res.statusCode (responses ws res) = 404%Z
  /\ (Req.method rq = js "GET" -> url = js "/missing" ->
      accepts_types rq <> Some (js "html") ->
      Res.finished (responses w res) = false ->
      Res.output (responses w res) = [] ->
      Res.output (responses ws res) = js "Cannot GET /missing\n"
      /\ Res.getHeader (js "Content-Type") (responses ws res)
         = Some (HStr (js "text/plain; charset=utf-8"))
      /\ Res.getHeader (js "Content-Length") (responses ws res)
         = Some (HNum 20)).
Proof.
  intros Hh Hl rq url ws.
  assert (Hres : resolve STATUS_CODES (stacktrace_of options) None rq
                         (Res.statusCode (responses w res))
                 = (404%Z, Some (js "Cannot " ++ Req.method rq ++ js " " ++ url))).
  { unfold resolve, jsor. subst url.
    destruct (Req.originalUrl rq) as [[|c u]|]; reflexivity. }
  destruct (finalhandler_settles req res options None w Hh Hl) as [Hr _].
  cbv zeta in Hr. fold rq ws in Hr.
  split; [exact Hres|].
  destruct (written_spec (Req.method rq)
              (fst (response options None rq (Res.statusCode (responses w res))))
              (snd (response options None rq (Res.statusCode (responses w res))))
              (responses w res)) as (Hs & _ & Hct & Hcl & Hout).
  cbv zeta in Hs, Hct, Hcl, Hout. rewrite <- Hr in Hs, Hct, Hcl, Hout.
  split.
  { rewrite Hs, response_status, Hres. reflexivity. }
  intros Hm Hu Hacc Hfin Hempty.
  assert (Hbody : snd (response options None rq (Res.statusCode (responses w res)))
                  = mkBuffer (js "Cannot GET /missing\n")
                             (js "text/plain; charset=utf-8")).
  { subst response. unfold response_for. rewrite Hres, Hm, Hu. cbn [snd].
    destruct (accepts_types rq) as [t|] eqn:Ht; [|reflexivity].
    destruct (jsstring_eqb t (js "html")) eqn:Hb; [|reflexivity].
    apply jsstring_eqb_eq in Hb. subst t. contradiction. }
  assert (H404 : (100 <= fst (response options None rq
                                      (Res.statusCode (responses w res))) <= 999)%Z).
  { rewrite response_status, Hres. cbn [fst]. lia. }
  destruct (Hout Hfin H404) as (_ & _ & Ho).
  rewrite Ho, Hct, Hcl, Hbody, Hempty, Hm. repeat split.
Qed.

(** C8.  For a request whose method is HEAD, the finalized response gets no
    body bytes, whatever type was negotiated, while its Content-Length is
    the byte length of the full rendered body, which is not empty, and
    X-Content-Type-Options and Content-Type are set, the latter from the
    rendered body.  The response is finished exactly when it accepts the
    status, that is, when the status is at most 999. *)
Theorem head_request req res options err w :
  Res._header (responses w res) = false ->
  Req.listeners (requests w req) = [] ->
  Res.finished (responses w res) = false ->
  Req.method (requests w req) = js "HEAD" ->
  let rq := requests w req in
  let status := fst (response options err rq (Res.statusCode (responses w res))) in
  let body := snd (response options err rq (Res.statusCode (responses w res))) in
  let ws := settled STATUS_CODES accepts_types req res options err w in
  Res.output (responses ws res) = Res.output (responses w res)
  /\ trace ws
     = trace w ++ before_write options err req res status body (Req.finished rq)
         ++ [ ESetStatus res status;
              ESetHeader res (js "X-Content-Type-Options") (HStr (js "nosniff"));
              ESetHeader res (js "Content-Type") (HStr (type body));
              ESetHeader res (js "Content-Length") (HNum (Buffer_length body));
              EEnd res None ]
  /\ Res.finished (responses ws res) = (status <=? 999)%Z
  /\ Res.getHeader (js "Content-Length") (responses ws res)
     = Some (HNum (Z.of_nat (length (bytes body))))
  /\ (0 < Z.of_nat (length (bytes body)))%Z
  /\ Res.getHeader (js "Content-Type") (responses ws res) = Some (HStr (type body))
  /\ (type body = js "text/html; charset=utf-8"
      \/ type body = js "text/plain; charset=utf-8")
  /\ Res.getHeader (js "X-Content-Type-Options") (responses ws res)
     = Some (HStr (js "nosniff")).
Proof.
  intros Hh Hl Hfin Hm rq status body ws.
  destruct (finalhandler_settles req res options err w Hh Hl) as [Hr Ht].
  cbv zeta in Hr, Ht. fold rq status body ws in Hr, Ht.
  destruct (written_spec (Req.method rq) status body (responses w res))
    as (_ & Hx & Hct & Hcl & Hout).
  cbv zeta in Hx, Hct, Hcl, Hout. rewrite <- Hr in Hx, Hct, Hcl, Hout.
  fold rq in Hm. rewrite Hm in Ht.
  split; [rewrite Hr; apply written_output_none; rewrite Hm; reflexivity|].
  split; [exact Ht|].
  split.
  { rewrite Hr, (written_finished _ _ _ _ Hh Hfin).
    pose proof (resolve_at_least_400 STATUS_CODES (stacktrace_of options) err rq
                  (Res.statusCode (responses w res))) as H400.
    rewrite <- response_status in H400. fold status in H400.
    destruct (Z.ltb_spec status 100); [lia|].
    destruct (Z.ltb_spec 999 status); destruct (Z.leb_spec status 999);
      first [reflexivity | lia]. }
  split; [exact Hcl|].
  split; [apply response_nonempty|].
  split; [exact Hct|].
  split; [|exact Hx].
  subst body. rewrite response_type.
  destruct (match accepts_types rq with
            | Some t => jsstring_eqb t (js "html")
            | None => false
            end); [left | right]; reflexivity.
Qed.

(** C10 (as amended).  For an error whose explicit status, its [status]
    when that is truthy and its [statusCode] when that is truthy and
    [status] is not, is at least 400, that value is the resolved status
    and the status of the response, whatever its size: no upper bound is
    applied.  With the stack trace option off the message
    is what the reason phrase table holds at that value; where the table
    has no entry the message is [undefined], which a plain text body shows
    as "undefined" and a newline. *)
Theorem status_has_no_upper_bound req res options e v w :
  explicit_status e = Some v -> (400 <= v)%Z ->
  truthy (stacktrace_of options) = false ->
  Res._header (responses w res) = false ->
  Req.listeners (requests w req) = [] ->
  let ws := settled STATUS_CODES accepts_types req res options (Some e) w in
  resolve STATUS_CODES (stacktrace_of options) (Some e) (requests w req)
          (Res.statusCode (responses w res))
  = (v, STATUS_CODES v)
  /\ Res.statusCode (responses ws res) = v
  /\ (STATUS_CODES v = None ->
      constructTextBody v (STATUS_CODES v)
      = mkBuffer (js "undefined\n") (js "text/plain; charset=utf-8")).
Proof.
  intros He Hv Hst Hh Hl ws.
  assert (Hres : resolve STATUS_CODES (stacktrace_of options) (Some e) (requests w req)
                         (Res.statusCode (responses w res))
                 = (v, STATUS_CODES v)).
  { pose proof (resolve_error_status STATUS_CODES (stacktrace_of options) e
                  (requests w req) (Res.statusCode (responses w res))) as Hs.
    rewrite He in Hs. cbv zeta in Hs.
    destruct (Z.ltb_spec v 400) as [Hlt|_]; [lia|].
    rewrite (surjective_pairing (resolve _ _ _ _ _)), Hs.
    cbn [resolve fst snd] in Hs |- *. rewrite Hst, Hs. reflexivity. }
  split; [exact Hres|].
  destruct (finalhandler_settles req res options (Some e) w Hh Hl) as [Hr _].
  cbv zeta in Hr. fold ws in Hr.
  split.
  - rewrite Hr.
    destruct (written_spec (Req.method (requests w req))
                (fst (response options (Some e) (requests w req)
                        (Res.statusCode (responses w res))))
                (snd (response options (Some e) (requests w req)
                        (Res.statusCode (responses w res))))
                (responses w res)) as (Hs & _).
    cbv zeta in Hs. rewrite Hs, response_status, Hres. reflexivity.
  - intros Hnone. rewrite Hnone. reflexivity.
Qed.

(** C5.  When the header block of the response is already out: without an
    error the invocation leaves request, response and queue as they are
    (its only trace is the line handed to [debug]); with an error it
    destroys the socket of the request and asks nothing of the response:
    no status, no header, no body. *)
Theorem headers_already_sent req res options w :
  Res._header (responses w res) = true ->
  handler req res options None w
  = (Normal tt,
     mkWorld (requests w) (responses w) (immediates w)
             (trace w ++ [EDebug (js "cannot 404 after headers sent") None]))
  /\ forall e,
      let w' := snd (handler req res options (Some e) w) in
      fst (handler req res options (Some e) w) = Normal tt
      /\ responses w' = responses w
      /\ Req.socket_destroyed (requests w' req) = true
      /\ trace w'
         = trace w
             ++ EDebug (js "default %s")
                  (Some (fst (resolve STATUS_CODES (stacktrace_of options) (Some e)
                                (requests w req) (Res.statusCode (responses w res)))))
             :: map EDefer (scheduled options (Some e) req res)
             ++ [EDestroy req].
Proof.
  intros Hh. split.
  - apply finalhandler_sent_no_error, Hh.
  - intros e w'. subst w'.
    rewrite (finalhandler_sent req res options e w Hh).
    cbn [fst snd requests responses trace]. rewrite upd_eq.
    repeat split.
Qed.

(** C9.  With an error and an error callback configured, one invocation
    queues the callback once, with the error and the request and response
    it was made for, and does not call it: the call happens on a later turn
    of the event loop.  This holds whether or not the header block of the
    response is already out, and also when the write that follows the
    deferral fails; the invocation completes exactly when it makes no
    write on the spot or the response accepts the status. *)
Theorem onerror_deferred req res fn st e w :
  let options := Some (Options.mk (Some fn) st) in
  let w' := snd (handler req res options (Some e) w) in
  (fst (handler req res options (Some e) w) = Normal tt
   <-> Res._header (responses w res) = true
       \/ Req.finished (requests w req) = false
       \/ Res.finished (responses w res) = true
       \/ (fst (response options (Some e) (requests w req)
                         (Res.statusCode (responses w res))) <= 999)%Z)
  /\ immediates w' = immediates w ++ [Call_onerror fn e req res]
  /\ filter is_defer (trace w')
     = filter is_defer (trace w) ++ [EDefer (Call_onerror fn e req res)]
  /\ filter is_invoke (trace w') = filter is_invoke (trace w)
  /\ (immediates w = [] ->
      turn w'
      = (Normal tt,
         mkWorld (requests w') (responses w') []
                 (trace w' ++ [EInvoke fn e req res]))).
Proof.
  intros options w'. subst w'.
  destruct (finalhandler_run req res options (Some e) w) as (E & Ht & Hi).
  split.
  { rewrite E. unfold invocation_outcome, refused. fold response.
    set (status := fst (response options (Some e) (requests w req)
                          (Res.statusCode (responses w res)))).
    assert (H400 : (400 <= status)%Z).
    { subst status. rewrite response_status. apply resolve_at_least_400. }
    destruct (Res._header (responses w res)); [split; [left|]; reflexivity|].
    destruct (Req.finished (requests w req));
      [|split; [right; left|]; reflexivity].
    destruct (Res.finished (responses w res));
      [split; [right; right; left|]; reflexivity|].
    cbn [negb andb].
    destruct (Z.ltb_spec status 100); [lia|].
    destruct (Z.ltb_spec 999 status); cbn [orb].
    - split; [discriminate|].
      intros [H' | [H' | [H' | H']]]; first [discriminate H' | lia].
    - split; [intros _; right; right; right; assumption | reflexivity]. }
  split; [exact Hi|].
  split; [|split].
  - rewrite Ht, filter_app, invocation_defers. reflexivity.
  - rewrite Ht, filter_app, invocation_invokes. apply app_nil_r.
  - intros Hq. unfold turn, bind, take_immediates. cbn [fst snd].
    rewrite Hi, Hq. reflexivity.
Qed.

End Handler.

(** * The properties at concrete inputs *)

Lemma html_body_format_witness :
  bytes (constructHtmlBody reason_phrases 404%Z (Some (js "a < b\n  c")))
  = utf8 (html_document (js "Not Found") (js "a &lt; b<br> &nbsp;c")).
Proof.
  exact (proj2 (proj2 (html_body_format reason_phrases 404%Z (Some (js "a < b\n  c"))))
           (js "Not Found") eq_refl).
Defined.

Lemma write_once_when_finished_witness :
  let w := world_of post_upload unsent_response in
  let w1 := snd (finalhandler reason_phrases prefers_text 0%nat 0%nat None None w) in
  let w2 := snd (emit_finished 0%nat w1) in
  Res._header (responses w 0%nat) = false
  /\ Req.listeners (requests w 0%nat) = []
  /\ Req.finished (requests w 0%nat) = false
  /\ (fst (response_for reason_phrases prefers_text None None (requests w 0%nat)
                        (Res.statusCode (responses w 0%nat))) <= 999)%Z
  /\ quiet w
  /\ ends 0%nat (trace w1) = 0%nat
  /\ ends 0%nat (trace w2) = 1%nat
  /\ ends 0%nat (trace (snd (run_env [Turn; Finish 1%nat] w1))) = 0%nat
  /\ ends 0%nat (trace (snd (run_env [Turn; Finish 0%nat; Finish 0%nat; Turn] w1)))
     = 1%nat.
Proof.
  intros w w1 w2.
  assert (Hq : quiet w) by (split; [intros k; reflexivity | reflexivity]).
  assert (Hmax : (fst (response_for reason_phrases prefers_text None None
                         (requests w 0%nat) (Res.statusCode (responses w 0%nat)))
                  <= 999)%Z) by (apply Z.leb_le; reflexivity).
  destruct (write_once_when_finished reason_phrases prefers_text 0%nat 0%nat None None
              w eq_refl eq_refl Hmax) as (_ & _ & H & Hs).
  destruct (H eq_refl) as (_ & H1 & _ & _ & _ & _ & _ & _ & H2 & _).
  split; [reflexivity|]. split; [reflexivity|]. split; [reflexivity|].
  split; [exact Hmax|].
  split; [exact Hq|].
  split; [exact H1|]. split; [exact H2|].
  split; [exact (proj2 (Hs Hq [Turn; Finish 1%nat]))
         | exact (proj2 (Hs Hq [Turn; Finish 0%nat; Finish 0%nat; Turn]))].
Defined.

(** C1, as stated, fails in two ways.  A second invocation on a request
    that is still being read comes to the send step and registers its
    write, but when the request ends the response gets the body of the
    first invocation, and of the second only the status.  And an invocation
    whose error asks for status 9999 calls [write] once on a finished
    request, but the response refuses the status and is left unfinished,
    without a body.  The claim fails even when it is helped with one of the
    two conditions that rule these runs out: it takes both. *)
Lemma write_once_counterexample :
  ~ (forall req res options err w,
        Res._header (responses w res) = false ->
        Res.finished (responses w res) = false ->
        (fst (response_for reason_phrases prefers_text options err (requests w req)
                           (Res.statusCode (responses w res))) <= 999)%Z ->
        let sb := response_for reason_phrases prefers_text options err
                               (requests w req) (Res.statusCode (responses w res)) in
        let ws := settled reason_phrases prefers_text req res options err w in
        Res.finished (responses ws res) = true
        /\ Res.statusCode (responses ws res) = fst sb
        /\ Res.output (responses ws res)
           = Res.output (responses w res)
               ++ match write_payload (Req.method (requests w req)) (snd sb) with
                  | Some d => d
                  | None => []
                  end)
  /\ ~ (forall req res options err w,
          Res._header (responses w res) = false ->
          Res.finished (responses w res) = false ->
          Req.listeners (requests w req) = [] ->
          let sb := response_for reason_phrases prefers_text options err
                                 (requests w req) (Res.statusCode (responses w res)) in
          let ws := settled reason_phrases prefers_text req res options err w in
          Res.finished (responses ws res) = true
          /\ Res.statusCode (responses ws res) = fst sb
          /\ Res.output (responses ws res)
             = Res.output (responses w res)
                 ++ match write_payload (Req.method (requests w req)) (snd sb) with
                    | Some d => d
                    | None => []
                    end).
Proof.
  split; intros H.
  - pose (w1 := snd (finalhandler reason_phrases prefers_text 0%nat 0%nat None None
                       (world_of post_upload unsent_response))).
    assert (Hmax : (fst (response_for reason_phrases prefers_text None (Some odd_error)
                           (requests w1 0%nat) (Res.statusCode (responses w1 0%nat)))
                    <= 999)%Z) by (apply Z.leb_le; reflexivity).
    destruct (H 0%nat 0%nat None (Some odd_error) w1 eq_refl eq_refl Hmax)
      as (_ & _ & Ho).
    vm_compute in Ho. discriminate Ho.
  - destruct (H 0%nat 0%nat None
                (Some (Error.mk None (Some 9999%Z) None (js "Error: boom")))
                (world_of get_missing unsent_response) eq_refl eq_refl eq_refl)
      as (Hf & _).
    vm_compute in Hf. discriminate Hf.
Qed.

(** The two runs of the counterexample, step by step: the second write
    fails on its first header and leaves the status it had assigned, and
    the refused write leaves an exception in the invocation. *)
Example second_invocation_scenario :
  let w := world_of post_upload unsent_response in
  let e := Error.mk None (Some 403%Z) None (js "Error: no") in
  let w1 := snd (finalhandler reason_phrases prefers_text 0%nat 0%nat None None w) in
  let w2 := snd (finalhandler reason_phrases prefers_text 0%nat 0%nat None (Some e) w1) in
  let w3 := snd (emit_finished 0%nat w2) in
  Res._header (responses w1 0%nat) = false
  /\ length (Req.listeners (requests w2 0%nat)) = 2%nat
  /\ fst (emit_finished 0%nat w2) = Throw HeadersSent
  /\ ends 0%nat (trace w3) = 1%nat
  /\ Res.statusCode (responses w3 0%nat) = 403%Z
  /\ Res.output (responses w3 0%nat) = js "Cannot POST /api/upload\n".
Proof. repeat split; reflexivity. Qed.

Example refused_status_scenario :
  let w := world_of get_missing unsent_response in
  let e := Error.mk None (Some 9999%Z) None (js "Error: boom") in
  let r := finalhandler reason_phrases prefers_text 0%nat 0%nat None (Some e) w in
  fst r = Throw (InvalidStatusCode 9999%Z)
  /\ Res.statusCode (responses (snd r) 0%nat) = 9999%Z
  /\ Res._header (responses (snd r) 0%nat) = false
  /\ Res.finished (responses (snd r) 0%nat) = false
  /\ Res.output (responses (snd r) 0%nat) = [].
Proof. repeat split; reflexivity. Qed.

Lemma not_found_witness :
  let w := world_of get_missing unsent_response in
  let ws := settled reason_phrases prefers_text 0%nat 0%nat None None w in
  Res._header (responses w 0%nat) = false
  /\ Res.statusCode (responses ws 0%nat) = 404%Z
  /\ Res.output (responses ws 0%nat) = js "Cannot GET /missing\n".
Proof.
  intros w ws.
  destruct (not_found reason_phrases prefers_text 0%nat 0%nat None w eq_refl eq_refl)
    as (_ & Hs & H).
  destruct H as (Ho & _); try reflexivity; [discriminate|].
  split; [reflexivity|]. split; [exact Hs | exact Ho].
Defined.

Lemma headers_already_sent_witness :
  let w := world_of get_missing sent_response in
  let e := Error.mk None (Some 403%Z) None (js "Error: boom") in
  let w' := snd (finalhandler reason_phrases prefers_text 0%nat 0%nat None (Some e) w) in
  Res._header (responses w 0%nat) = true
  /\ responses w' = responses w
  /\ Req.socket_destroyed (requests w' 0%nat) = true.
Proof.
  intros w e w'.
  destruct (headers_already_sent reason_phrases prefers_text 0%nat 0%nat None w eq_refl)
    as (_ & H).
  destruct (H e) as (_ & Hr & Hd & _).
  split; [reflexivity|]. split; [exact Hr | exact Hd].
Defined.

Lemma head_request_witness :
  let w := world_of head_missing unsent_response in
  let ws := settled reason_phrases prefers_html 0%nat 0%nat None None w in
  Req.method (requests w 0%nat) = js "HEAD"
  /\ Res.output (responses ws 0%nat) = []
  /\ Res.getHeader (js "Content-Length") (responses ws 0%nat) = Some (HNum 128).
Proof.
  intros w ws.
  destruct (head_request reason_phrases prefers_html 0%nat 0%nat None None w
              eq_refl eq_refl eq_refl eq_refl) as (Ho & _ & _ & Hcl & _).
  split; [reflexivity|]. split; [exact Ho | exact Hcl].
Defined.

Lemma onerror_deferred_witness :
  let w := world_of get_missing sent_response in
  let e := Error.mk None (Some 403%Z) None (js "Error: boom") in
  let w' := snd (finalhandler reason_phrases prefers_text 0%nat 0%nat
                   (Some (Options.mk (Some 7%nat) None)) (Some e) w) in
  immediates w = []
  /\ immediates w' = [Call_onerror 7%nat e 0%nat 0%nat]
  /\ filter is_invoke (trace w') = []
  /\ filter is_invoke (trace (snd (turn w'))) = [EInvoke 7%nat e 0%nat 0%nat].
Proof.
  intros w e w'.
  destruct (onerror_deferred reason_phrases prefers_text 0%nat 0%nat 7%nat None e w)
    as (_ & Hq & _ & Hi & Ht).
  split; [reflexivity|]. split; [exact Hq|]. split; [exact Hi|].
  pose proof (f_equal (fun r => filter is_invoke (trace (snd r))) (Ht eq_refl)) as Hc.
  cbn [snd trace] in Hc. rewrite filter_app, Hi in Hc. exact Hc.
Defined.

Lemma status_has_no_upper_bound_witness :
  let w := world_of get_missing unsent_response in
  let e := Error.mk (Some 700%Z) None (Some (js "Error: boom")) (js "Error: boom") in
  let ws := settled reason_phrases prefers_text 0%nat 0%nat None (Some e) w in
  explicit_status e = Some 700%Z
  /\ Res.statusCode (responses ws 0%nat) = 700%Z
  /\ Res.output (responses ws 0%nat) = js "undefined\n".
Proof.
  intros w e ws.
  destruct (status_has_no_upper_bound reason_phrases prefers_text 0%nat 0%nat None
              e 700%Z w eq_refl) as (Hres & Hs & Hb);
    try reflexivity; [discriminate|].
  split; [reflexivity|]. split; [exact Hs|].
  specialize (Hb eq_refl). reflexivity.
Defined.

(** The scenarios of the specification for an error: [{status: 403}] is
    answered with 403 and "Forbidden", [{}] with 500 and "Internal Server
    Error". *)
Example forbidden_scenario :
  let e := Error.mk None (Some 403%Z) (Some (js "Error: no\n    at x.js:1")) (js "Error: no") in
  let ws := settled reason_phrases prefers_text 0%nat 0%nat None (Some e)
                    (world_of get_missing unsent_response) in
  Res.statusCode (responses ws 0%nat) = 403%Z
  /\ Res.output (responses ws 0%nat) = js "Forbidden\n".
Proof. split; reflexivity. Qed.

Example plain_error_scenario :
  let e := Error.mk None None None (js "[object Object]") in
  let ws := settled reason_phrases prefers_text 0%nat 0%nat None (Some e)
                    (world_of get_missing unsent_response) in
  Res.statusCode (responses ws 0%nat) = 500%Z
  /\ Res.output (responses ws 0%nat) = js "Internal Server Error\n".
Proof. split; reflexivity. Qed.

(** The scenario of a request that is still being read: nothing is written
    by the invocation, and the end of the request brings the write. *)
Example deferred_scenario :
  let w := world_of post_upload unsent_response in
  let w1 := snd (finalhandler reason_phrases prefers_text 0%nat 0%nat None None w) in
  let w2 := snd (emit_finished 0%nat w1) in
  Res.output (responses w1 0%nat) = [] /\ Res._header (responses w1 0%nat) = false
  /\ Req.pipes (requests w1 0%nat) = [] /\ Req.flowing (requests w1 0%nat) = true
  /\ Res.statusCode (responses w2 0%nat) = 404%Z
  /\ Res.output (responses w2 0%nat) = js "Cannot POST /api/upload\n".
Proof. repeat split; reflexivity. Qed.

(** An HTML answer, byte for byte. *)
Example html_scenario :
  let ws := settled reason_phrases prefers_html 0%nat 0%nat None None
                    (world_of get_missing unsent_response) in
  Res.output (responses ws 0%nat)
  = js "<!doctype html>\n<html lang=en>\n<head>\n<meta charset=utf-8>\n<title>Not Found</title>\n</head>\n<body>\nCannot GET /missing\n</body>\n".
Proof. reflexivity. Qed.

(** * Rendered bodies *)

Lemma utf8_ascii_app a t : Forall (fun c => c < 128) a -> utf8 (a ++ t) = a ++ utf8 t.
Proof.
  induction 1 as [|c a Hc _ IH]; [reflexivity|].
  cbn [app utf8]. unfold is_high, is_low, utf8_scalar.
  destruct (N.leb_spec 0xD800 c) as [H|_]; [lia|]. cbn [andb].
  destruct (N.leb_spec 0xDC00 c) as [H|_]; [lia|]. cbn [andb].
  destruct (N.ltb_spec c 0x80) as [_|H]; [|lia].
  rewrite IH. reflexivity.
Qed.

(** Encoding goes through a concatenation wherever the right part does not
    open with a low surrogate. *)
Lemma utf8_app s t : head_low t = false -> utf8 (s ++ t) = utf8 s ++ utf8 t.
Proof.
  intros Ht.
  assert (H : forall n s, (length s <= n)%nat -> utf8 (s ++ t) = utf8 s ++ utf8 t).
  { clear s. induction n as [|n IH]; intros s Hn.
    - destruct s; [reflexivity | cbn in Hn; lia].
    - destruct s as [|c s']; [reflexivity|].
      cbn [length] in Hn. cbn [app utf8].
      destruct (is_high c).
      + destruct s' as [|d s''].
        * cbn [app]. destruct t as [|d t']; [reflexivity|].
          cbn [head_low] in Ht. rewrite Ht. reflexivity.
        * cbn [app]. destruct (is_low d).
          -- rewrite IH by (cbn [length] in Hn; lia). apply app_assoc.
          -- change (d :: s'' ++ t) with ((d :: s'') ++ t).
             rewrite IH by lia. apply app_assoc.
      + destruct (is_low c); rewrite IH by lia; apply app_assoc. }
  apply (H (length s)). lia.
Qed.

Lemma html_message_tokens s : concat (html_tokens s) = html_message s.
Proof.
  assert (H : forall n s, (length s <= n)%nat -> concat (html_tokens s) = html_message s).
  { clear s. induction n as [|n IH]; intros s Hn.
    - destruct s; [reflexivity | cbn in Hn; lia].
    - destruct s as [|c s']; [reflexivity|].
      cbn [length] in Hn. cbn [html_tokens html_message].
      destruct (c =? 32).
      + destruct s' as [|d s'']; [reflexivity|].
        destruct (d =? 32); cbn [concat];
          rewrite IH by (cbn [length] in *; lia); reflexivity.
      + cbn [concat]. rewrite IH by lia. unfold html_unit.
        destruct (c =? 10); reflexivity. }
  apply (H (length s)). lia.
Qed.

Lemma html_unit_token c : c <> 32 -> is_html_token (html_unit c) = true.
Proof.
  intros Hc. unfold html_unit.
  destruct (N.eqb_spec c 10) as [-> | H10]; [reflexivity|].
  destruct (escape_unit_cases c) as [H | H].
  - destruct H as [-> | [-> | [-> | [-> | ->]]]]; reflexivity.
  - unfold escape_unit in *.
    destruct (N.eqb_spec c 34); [discriminate H|].
    destruct (N.eqb_spec c 38); [discriminate H|].
    destruct (N.eqb_spec c 39); [discriminate H|].
    destruct (N.eqb_spec c 60); [discriminate H|].
    destruct (N.eqb_spec c 62); [discriminate H|].
    unfold is_html_token, harmless. cbn [existsb jsstring_eqb].
    destruct (N.eqb_spec c 10); [contradiction|].
    destruct (N.eqb_spec c 34); [contradiction|].
    destruct (N.eqb_spec c 38); [contradiction|].
    destruct (N.eqb_spec c 39); [contradiction|].
    destruct (N.eqb_spec c 60); [contradiction|].
    destruct (N.eqb_spec c 62); [contradiction|].
    cbn. rewrite !andb_false_r. reflexivity.
Qed.

Lemma html_tokens_safe s : forallb is_html_token (html_tokens s) = true.
Proof.
  assert (H : forall n s, (length s <= n)%nat ->
                forallb is_html_token (html_tokens s) = true).
  { clear s. induction n as [|n IH]; intros s Hn.
    - destruct s; [reflexivity | cbn in Hn; lia].
    - destruct s as [|c s']; [reflexivity|].
      cbn [length] in Hn. cbn [html_tokens].
      destruct (N.eqb_spec c 32) as [-> | Hc].
      + destruct s' as [|d s'']; [reflexivity|].
        destruct (d =? 32); cbn [forallb];
          rewrite IH by (cbn [length] in *; lia); reflexivity.
      + cbn [forallb]. rewrite html_unit_token by exact Hc.
        rewrite IH by lia. reflexivity. }
  apply (H (length s)). lia.
Qed.

Lemma html_body_message_spec message :
  html_body_message message = html_message (String_ message).
Proof.
  unfold html_body_message, escapeHtml. rewrite replace_newlines_escaped.
  change (replace (js "  ") (js " &nbsp;") (flat_map html_unit (String_ message)))
    with (replace_all 32 [32] (js " &nbsp;") (flat_map html_unit (String_ message))).
  apply replace_spaces_html.
Qed.

Lemma token_no_newline t :
  is_html_token t = true -> forallb (fun c => negb (c =? 10)) t = true.
Proof.
  unfold is_html_token. intros H. apply orb_true_iff in H. destruct H as [H | H].
  - cbn [existsb] in H.
    repeat (apply orb_true_iff in H; destruct H as [H | H];
            [apply jsstring_eqb_eq in H; subst t; reflexivity|]).
    discriminate H.
  - destruct t as [|c [|d t]]; try discriminate H.
    unfold harmless in H. cbn [existsb] in H. cbn [forallb].
    destruct (c =? 10); [discriminate H | reflexivity].
Qed.

Lemma forallb_concat {A} (f : A -> bool) (ls : list (list A)) :
  forallb (forallb f) ls = true -> forallb f (concat ls) = true.
Proof.
  induction ls as [|l ls IH]; [reflexivity|].
  cbn [forallb concat]. intros H. apply andb_true_iff in H. destruct H as [Hl Hls].
  rewrite forallb_app, Hl, IH by exact Hls. reflexivity.
Qed.

Lemma html_message_no_newline s :
  forallb (fun c => negb (c =? 10)) (html_message s) = true.
Proof.
  rewrite <- html_message_tokens. apply forallb_concat.
  pose proof (html_tokens_safe s) as H.
  induction (html_tokens s) as [|t ts IH]; [reflexivity|].
  cbn [forallb] in *. apply andb_true_iff in H. destruct H as [Ht Hts].
  rewrite token_no_newline by exact Ht. apply IH, Hts.
Qed.

Lemma html_message_head d s :
  d <> 32 -> head_space (html_message (d :: s)) = false.
Proof.
  intros Hd. cbn [html_message].
  destruct (N.eqb_spec d 32) as [E | _]; [contradiction|].
  destruct (N.eqb_spec d 10) as [_ | _]; [reflexivity|].
  destruct (escape_unit_cases d) as [H | H].
  - destruct H as [-> | [-> | [-> | [-> | ->]]]]; reflexivity.
  - rewrite H. cbn [app head_space].
    destruct (N.eqb_spec d 32); [contradiction | reflexivity].
Qed.

Lemma html_message_no_pair s : has_pair (html_message s) = false.
Proof.
  assert (H : forall n s, (length s <= n)%nat -> has_pair (html_message s) = false).
  { clear s. induction n as [|n IH]; intros s Hn.
    - destruct s; [reflexivity | cbn in Hn; lia].
    - destruct s as [|c s']; [reflexivity|].
      cbn [length] in Hn. cbn [html_message].
      destruct (N.eqb_spec c 32) as [-> | Hc].
      + destruct s' as [|d s'']; [reflexivity|].
        destruct (N.eqb_spec d 32) as [-> | Hd].
        * cbn. apply IH. cbn [length] in Hn. lia.
        * cbn [has_pair]. rewrite html_message_head by exact Hd.
          rewrite andb_false_r. cbn [orb]. apply IH. lia.
      + destruct (N.eqb_spec c 10) as [-> | H10].
        * cbn. apply IH. lia.
        * destruct (escape_unit_cases c) as [H | H].
          -- destruct H as [-> | [-> | [-> | [-> | ->]]]]; cbn; apply IH; lia.
          -- rewrite H. cbn [app has_pair].
             destruct (N.eqb_spec c 32); [contradiction|].
             cbn [andb orb]. apply IH. lia. }
  apply (H (length s)). lia.
Qed.

Ltac ascii := cbn [js N_of_ascii]; repeat (constructor; try reflexivity).

Section Bodies.

Variable STATUS_CODES : Z -> option jsstring.

(** X1.  The message of an HTML body is made of line breaks, spaces with
    non-breaking spaces, the five entities and code units that are neither
    a newline, a quote, an ampersand nor an angle bracket: the two
    replacements of [constructHtmlBody] do not undo the escaping, and no
    text of a message can open a tag or an entity of its own. *)
Theorem html_message_is_safe message :
  html_body_message message = concat (html_tokens (String_ message))
  /\ forallb is_html_token (html_tokens (String_ message)) = true.
Proof.
  split.
  - rewrite html_body_message_spec. symmetry. apply html_message_tokens.
  - apply html_tokens_safe.
Qed.

(** X2.  The message of an HTML body holds no two spaces in a row and no
    newline: every pair of spaces has been broken up, also in runs of odd
    length, and the message stays on one line of the document. *)
Theorem html_message_spacing message :
  has_pair (html_body_message message) = false
  /\ forallb (fun c => negb (c =? 10)) (html_body_message message) = true.
Proof.
  rewrite html_body_message_spec. split.
  - apply html_message_no_pair.
  - apply html_message_no_newline.
Qed.

(** X3.  The plain text body is the encoding of the message followed by
    the single byte of a newline, whatever the message ends with; its
    length is one more than that of the encoded message, and the status
    has no part in it. *)
Theorem text_body_bytes status message :
  bytes (constructTextBody status message) = utf8 (String_ message) ++ [10]
  /\ Buffer_length (constructTextBody status message)
     = (Z.of_nat (length (utf8 (String_ message))) + 1)%Z
  /\ forall status', constructTextBody status' message = constructTextBody status message.
Proof.
  assert (H : bytes (constructTextBody status message) = utf8 (String_ message) ++ [10]).
  { unfold constructTextBody. cbn [bytes]. rewrite utf8_app by reflexivity.
    reflexivity. }
  split; [exact H|]. split; [|reflexivity].
  unfold Buffer_length. rewrite H, length_app. cbn [length]. lia.
Qed.

(** X4.  The bytes of an HTML body are a fixed ASCII frame around the
    encoded title and the encoded message, neither of which can merge with
    the frame; its length is 99 more than the two encodings together. *)
Theorem html_body_frame status message :
  bytes (constructHtmlBody STATUS_CODES status message)
  = js "<!doctype html>\n<html lang=en>\n<head>\n<meta charset=utf-8>\n<title>"
    ++ utf8 (escapeHtml (STATUS_CODES status))
    ++ js "</title>\n</head>\n<body>\n"
    ++ utf8 (html_body_message message)
    ++ js "\n</body>\n"
  /\ Buffer_length (constructHtmlBody STATUS_CODES status message)
     = (99 + Z.of_nat (length (utf8 (escapeHtml (STATUS_CODES status))))
        + Z.of_nat (length (utf8 (html_body_message message))))%Z.
Proof.
  assert (H : bytes (constructHtmlBody STATUS_CODES status message)
              = js "<!doctype html>\n<html lang=en>\n<head>\n<meta charset=utf-8>\n<title>"
                ++ utf8 (escapeHtml (STATUS_CODES status))
                ++ js "</title>\n</head>\n<body>\n"
                ++ utf8 (html_body_message message)
                ++ js "\n</body>\n").
  { unfold constructHtmlBody. cbn [bytes]. fold (html_body_message message).
    rewrite (utf8_ascii_app (js "<!doctype html>\n")) by ascii.
    rewrite (utf8_ascii_app (js "<html lang=en>\n")) by ascii.
    rewrite (utf8_ascii_app (js "<head>\n")) by ascii.
    rewrite (utf8_ascii_app (js "<meta charset=utf-8>\n")) by ascii.
    rewrite (utf8_ascii_app (js "<title>")) by ascii.
    rewrite (utf8_app (escapeHtml (STATUS_CODES status))) by reflexivity.
    rewrite (utf8_ascii_app (js "</title>\n")) by ascii.
    rewrite (utf8_ascii_app (js "</head>\n")) by ascii.
    rewrite (utf8_ascii_app (js "<body>\n")) by ascii.
    rewrite (utf8_app (html_body_message message)) by reflexivity.
    reflexivity. }
  split; [exact H|].
  unfold Buffer_length. rewrite H, !length_app.
  change (length (js "<!doctype html>\n<html lang=en>\n<head>\n<meta charset=utf-8>\n<title>"))
    with 66%nat.
  change (length (js "</title>\n</head>\n<body>\n")) with 24%nat.
  change (length (js "\n</body>\n")) with 9%nat.
  lia.
Qed.

End Bodies.

(** * What an invocation does to the world *)

Section Invocations.

Variable STATUS_CODES : Z -> option jsstring.
Variable accepts_types : Req.t -> option jsstring.

Let handler := finalhandler STATUS_CODES accepts_types.
Let response := response_for STATUS_CODES accepts_types.

(** The stores after an invocation, on each of its four ways. *)
Lemma invocation_stores req res options err w :
  let rq := requests w req in
  let rs := responses w res in
  let status := fst (response options err rq (Res.statusCode rs)) in
  let body := snd (response options err rq (Res.statusCode rs)) in
  let w' := snd (handler req res options err w) in
  (forall k, k <> req -> requests w' k = requests w k)
  /\ (forall k, k <> res -> responses w' k = responses w k)
  /\ requests w' req
     = (if Res._header rs
        then if truthy err then Req.with_socket_destroyed true rq else rq
        else if Req.finished rq then rq
             else awaiting (WriteListener req res status body) rq)
  /\ responses w' res
     = (if Res._header rs then rs
        else if Req.finished rq then written (Req.method rq) status body rs
             else rs).
Proof.
  intros rq rs status body w'. subst w' handler.
  destruct (Res._header rs) eqn:Hh; subst rs.
  - destruct err as [e|].
    + rewrite (finalhandler_sent STATUS_CODES accepts_types req res options e w Hh).
      cbn [snd requests responses truthy Truthy_optional Truthy_error].
      repeat split; try apply upd_eq; try (intros; apply upd_neq; assumption).
    + rewrite (finalhandler_sent_no_error STATUS_CODES accepts_types req res options w Hh).
      repeat split.
  - pose proof (finalhandler_unsent STATUS_CODES accepts_types req res options err w Hh)
      as Hrun.
    cbv zeta in Hrun. fold response rq status body in Hrun. rewrite Hrun.
    set (w0 := before_send options err req res status w).
    destruct (Req.finished rq) eqn:Hf.
    + rewrite send_finished by exact Hf.
      destruct (write_run req res status body w0 Hh) as (_ & Hq & _ & _ & Hk & Hr).
      rewrite Hq.
      repeat split; first [assumption | reflexivity | intros; apply Hk; assumption].
    + destruct (send_unfinished req res status body w0 Hf) as (_ & Hrs & _ & _ & Hk & Hq).
      rewrite Hrs.
      repeat split; first [assumption | reflexivity | intros; apply Hk; assumption].
Qed.


(** X7.  What an invocation does to its request: the socket is destroyed
    when, and only when, the header block is out and there is an error;
    the request is unpiped, given the write as a listener and resumed
    when, and only when, the header block is not out and the request has
    not finished; in every other case the request is left as it was.
    Method and URLs are never changed. *)
Theorem invocation_request req res options err w :
  let rq := requests w req in
  let rs := responses w res in
  let rq' := requests (snd (handler req res options err w)) req in
  Req.socket_destroyed rq'
  = Req.socket_destroyed rq || (Res._header rs && truthy err)
  /\ (Res._header rs = false -> Req.finished rq = false ->
      Req.pipes rq' = [] /\ Req.flowing rq' = true
      /\ exists l, Req.listeners rq' = Req.listeners rq ++ [l])
  /\ (Res._header rs = true \/ Req.finished rq = true ->
      Req.pipes rq' = Req.pipes rq /\ Req.flowing rq' = Req.flowing rq
      /\ Req.listeners rq' = Req.listeners rq)
  /\ Req.method rq' = Req.method rq
  /\ Req.originalUrl rq' = Req.originalUrl rq
  /\ Req.url rq' = Req.url rq
  /\ Req.finished rq' = Req.finished rq.
Proof.
  intros rq rs rq'. subst rq'.
  destruct (invocation_stores req res options err w) as (_ & _ & Hq & _).
  cbv zeta in Hq. fold rq rs in Hq. rewrite Hq.
  destruct (Res._header rs) eqn:Hh.
  - destruct (truthy err); cbn; rewrite ?orb_true_r, ?orb_false_r;
      (split; [reflexivity|]); (split; [discriminate|]);
      repeat split; reflexivity.
  - destruct (Req.finished rq) eqn:Hf; cbn; rewrite ?orb_false_r.
    + split; [reflexivity|]. split; [discriminate|].
      repeat split; first [reflexivity | exact Hf].
    + split; [reflexivity|].
      split; [intros _ _; repeat split; eexists; reflexivity|].
      split; [intros [H | H]; discriminate H|].
      repeat split; first [reflexivity | exact Hf].
Qed.

End Invocations.

(** * The message that an invocation sends *)

Section Messages.

Variable STATUS_CODES : Z -> option jsstring.
Variable accepts_types : Req.t -> option jsstring.

Let handler := finalhandler STATUS_CODES accepts_types.
Let settle := settled STATUS_CODES accepts_types.

(** Status and body of an invocation with an error, with the message
    written out. *)
Lemma response_of_error options e rq s0 :
  let status := fst (resolve STATUS_CODES (stacktrace_of options) (Some e) rq s0) in
  let message :=
    if truthy (stacktrace_of options)
    then Some (match Error.stack e with
               | Some (c :: s) => c :: s
               | _ => Error.toString e
               end)
    else STATUS_CODES status in
  response_for STATUS_CODES accepts_types options (Some e) rq s0
  = (status,
     match accepts_types rq with
     | Some t => if jsstring_eqb t (js "html")
                 then constructHtmlBody STATUS_CODES status message
                 else constructTextBody status message
     | None => constructTextBody status message
     end).
Proof.
  intros status message. subst status message. unfold response_for.
  rewrite <- (resolve_message STATUS_CODES (stacktrace_of options) e rq s0).
  destruct (resolve STATUS_CODES (stacktrace_of options) (Some e) rq s0). reflexivity.
Qed.

Lemma filter_defers_none ts :
  filter (fun ev => negb (is_defer ev)) (map EDefer ts) = [].
Proof. induction ts as [|t ts IH]; [reflexivity | exact IH]. Qed.

(** C6.  An invocation with an error hands to the write, made on the spot
    or registered for the end of the request, the body rendered from one
    message: with the stack trace option off (the default) the entry of the
    reason phrase table at the resolved status, with the option on the stack
    of the error when it has a non-empty one and the string form of the
    error otherwise; when the header block is already out there is no write
    and no body at all.  Once the request has finished the response is what
    that write makes of it.  With the option off nothing of the error but
    its resolved status reaches request or response: an invocation with any
    other error that resolves to the same status leaves the same requests
    and responses and, but for the deferred call of the error callback, the
    same trace, and the same response once the request has finished. *)
Theorem message_of_error req res options e w :
  let rq := requests w req in
  let rs := responses w res in
  let status :=
    fst (resolve STATUS_CODES (stacktrace_of options) (Some e) rq (Res.statusCode rs)) in
  let message :=
    if truthy (stacktrace_of options)
    then Some (match Error.stack e with
               | Some (c :: s) => c :: s
               | _ => Error.toString e
               end)
    else STATUS_CODES status in
  let body :=
    match accepts_types rq with
    | Some t => if jsstring_eqb t (js "html")
                then constructHtmlBody STATUS_CODES status message
                else constructTextBody status message
    | None => constructTextBody status message
    end in
  let w1 := snd (handler req res options (Some e) w) in
  trace w1
  = trace w
      ++ EDebug (js "default %s") (Some status)
      :: map EDefer (scheduled options (Some e) req res)
      ++ (if Res._header rs then [EDestroy req]
          else if Req.finished rq
               then write_events (Req.method rq) res status body
               else [EUnpipe req; EOnFinished req (WriteListener req res status body);
                     EResume req])
  /\ (Res._header rs = false -> Req.listeners rq = [] ->
      responses (settle req res options (Some e) w) res
      = written (Req.method rq) status body rs)
  /\ (truthy (stacktrace_of options) = false ->
      forall e',
        fst (resolve STATUS_CODES (stacktrace_of options) (Some e') rq
                     (Res.statusCode rs)) = status ->
        let w1' := snd (handler req res options (Some e') w) in
        (forall k, responses w1' k = responses w1 k)
        /\ (forall k, requests w1' k = requests w1 k)
        /\ filter (fun ev => negb (is_defer ev)) (trace w1')
           = filter (fun ev => negb (is_defer ev)) (trace w1)
        /\ (Res._header rs = false -> Req.listeners rq = [] ->
            responses (settle req res options (Some e') w) res
            = responses (settle req res options (Some e) w) res)).
Proof.
  intros rq rs status message body w1.
  pose proof (response_of_error options e rq (Res.statusCode rs)) as Hresp.
  cbv zeta in Hresp. fold status message body in Hresp.
  assert (Htrace : forall e0,
             response_for STATUS_CODES accepts_types options (Some e0) rq
                          (Res.statusCode rs) = (status, body) ->
             trace (snd (handler req res options (Some e0) w))
             = trace w
                 ++ EDebug (js "default %s") (Some status)
                 :: map EDefer (scheduled options (Some e0) req res)
                 ++ (if Res._header rs then [EDestroy req]
                     else if Req.finished rq
                          then write_events (Req.method rq) res status body
                          else [EUnpipe req;
                                EOnFinished req (WriteListener req res status body);
                                EResume req])).
  { intros e0 H0.
    destruct (finalhandler_run STATUS_CODES accepts_types req res options (Some e0) w)
      as (_ & Ht & _).
    unfold handler. rewrite Ht. unfold invocation_events.
    change (requests w req) with rq. change (responses w res) with rs.
    rewrite H0. reflexivity. }
  assert (Hsettle : forall e0,
             response_for STATUS_CODES accepts_types options (Some e0) rq
                          (Res.statusCode rs) = (status, body) ->
             Res._header rs = false -> Req.listeners rq = [] ->
             responses (settle req res options (Some e0) w) res
             = written (Req.method rq) status body rs).
  { intros e0 H0 Hh Hl.
    destruct (finalhandler_settles STATUS_CODES accepts_types req res options (Some e0)
                w Hh Hl) as [Hr _].
    cbv zeta in Hr. fold rq rs in Hr. rewrite H0 in Hr. exact Hr. }
  assert (Hstores : forall e0,
             response_for STATUS_CODES accepts_types options (Some e0) rq
                          (Res.statusCode rs) = (status, body) ->
             let w0 := snd (handler req res options (Some e0) w) in
             (forall k, responses w0 k
                        = if Nat.eqb k res
                          then if Res._header rs then rs
                               else if Req.finished rq
                                    then written (Req.method rq) status body rs
                                    else rs
                          else responses w k)
             /\ (forall k, requests w0 k
                           = if Nat.eqb k req
                             then if Res._header rs
                                  then Req.with_socket_destroyed true rq
                                  else if Req.finished rq then rq
                                       else awaiting (WriteListener req res status body)
                                                     rq
                             else requests w k)).
  { intros e0 H0 w0.
    destruct (invocation_stores STATUS_CODES accepts_types req res options (Some e0) w)
      as (Hq & Hr & Hq' & Hr').
    cbv zeta in Hq', Hr'. fold rq rs in Hq', Hr'. rewrite H0 in Hq', Hr'.
    cbn [fst snd truthy Truthy_optional Truthy_error] in Hq', Hr'.
    subst w0 handler. split; intros k.
    - destruct (Nat.eqb_spec k res) as [->|Hk]; [exact Hr' | apply Hr, Hk].
    - destruct (Nat.eqb_spec k req) as [->|Hk]; [exact Hq' | apply Hq, Hk]. }
  split; [exact (Htrace e Hresp)|].
  split; [exact (Hsettle e Hresp)|].
  intros Hst e' Hsame w1'.
  assert (Hresp' : response_for STATUS_CODES accepts_types options (Some e') rq
                                (Res.statusCode rs) = (status, body)).
  { pose proof (response_of_error options e' rq (Res.statusCode rs)) as H'.
    cbv zeta in H'. rewrite Hsame, Hst in H'. rewrite H'.
    subst body message. rewrite Hst. reflexivity. }
  destruct (Hstores e Hresp) as [Hr Hq].
  destruct (Hstores e' Hresp') as [Hr' Hq'].
  split; [intros k; subst w1' w1; rewrite Hr', Hr; reflexivity|].
  split; [intros k; subst w1' w1; rewrite Hq', Hq; reflexivity|].
  split.
  - subst w1' w1. rewrite (Htrace e Hresp), (Htrace e' Hresp').
    change (?x :: ?l ++ ?t) with ([x] ++ l ++ t).
    rewrite !filter_app, !filter_defers_none. reflexivity.
  - intros Hh Hl. rewrite (Hsettle e Hresp Hh Hl), (Hsettle e' Hresp' Hh Hl).
    reflexivity.
Qed.

End Messages.

Lemma message_of_error_witness :
  let w := world_of get_missing unsent_response in
  let e := Error.mk None (Some 403%Z) (Some (js "Error: secret\n    at x.js:1"))
                    (js "Error: secret") in
  let e' := Error.mk (Some 403%Z) None (Some (js "Error: other")) (js "Error: other") in
  let traces := Some (Options.mk None (Some true)) in
  let ws := settled reason_phrases prefers_text 0%nat 0%nat None (Some e) w in
  let ws' := settled reason_phrases prefers_text 0%nat 0%nat None (Some e') w in
  let wt := settled reason_phrases prefers_text 0%nat 0%nat traces (Some e) w in
  Res._header (responses w 0%nat) = false
  /\ Res.output (responses ws 0%nat) = js "Forbidden\n"
  /\ responses ws' 0%nat = responses ws 0%nat
  /\ Res.output (responses wt 0%nat) = js "Error: secret\n    at x.js:1\n".
Proof.
  intros w e e' traces ws ws' wt.
  destruct (message_of_error reason_phrases prefers_text 0%nat 0%nat None e w)
    as (_ & Hs & Hn).
  destruct (Hn eq_refl e' eq_refl) as (_ & _ & _ & Hsame).
  destruct (message_of_error reason_phrases prefers_text 0%nat 0%nat traces e w)
    as (_ & Ht & _).
  split; [reflexivity|].
  split; [exact (eq_trans (f_equal Res.output (Hs eq_refl eq_refl)) eq_refl)|].
  split; [exact (Hsame eq_refl eq_refl)|].
  exact (eq_trans (f_equal Res.output (Ht eq_refl eq_refl)) eq_refl).
Defined.

(** * What a finalized response holds *)

Lemma find_filter {A} (p q : A -> bool) l :
  (forall x, p x = true -> q x = true) -> find p (filter q l) = find p l.
Proof.
  intros Hpq. induction l as [|x l IH]; [reflexivity|].
  cbn [filter find]. destruct (q x) eqn:Hq.
  - cbn [find]. rewrite IH. reflexivity.
  - destruct (p x) eqn:Hp; [rewrite (Hpq x Hp) in Hq; discriminate Hq | exact IH].
Qed.

Lemma jsstring_eqb_neq a b : a <> b -> jsstring_eqb a b = false.
Proof.
  intros H. destruct (jsstring_eqb a b) eqn:E; [|reflexivity].
  apply jsstring_eqb_eq in E. contradiction.
Qed.

(** A header set under one name leaves the headers of other names. *)
Lemma getHeader_setHeader_other name v n r :
  toLowerCase n <> toLowerCase name ->
  Res.getHeader n (Res.setHeader name v r) = Res.getHeader n r.
Proof.
  intros Hne. unfold Res.getHeader, Res.setHeader.
  cbn [Res.headers Res.with_headers find fst].
  rewrite (jsstring_eqb_neq (toLowerCase name) (toLowerCase n))
    by (intros E; apply Hne; symmetry; exact E).
  rewrite find_filter; [reflexivity|].
  intros [k x] Hk. cbn [fst] in *. apply jsstring_eqb_eq in Hk. subst k.
  rewrite jsstring_eqb_neq by exact Hne. reflexivity.
Qed.

Lemma getHeader_written_other method status body n r :
  toLowerCase n <> js "x-content-type-options" ->
  toLowerCase n <> js "content-type" ->
  toLowerCase n <> js "content-length" ->
  Res.getHeader n (written method status body r) = Res.getHeader n r.
Proof.
  intros H1 H2 H3. unfold written.
  set (r3 := Res.setHeader (js "Content-Length") _ _).
  assert (H : Res.getHeader n r3 = Res.getHeader n r).
  { subst r3. rewrite !getHeader_setHeader_other by assumption. reflexivity. }
  destruct (Res.finished r3); [exact H|].
  destruct (negb (Res._header r3) && Res.invalid_status r3); exact H.
Qed.

Section Responses.

Variable STATUS_CODES : Z -> option jsstring.
Variable accepts_types : Req.t -> option jsstring.

Let handler := finalhandler STATUS_CODES accepts_types.
Let response := response_for STATUS_CODES accepts_types.
Let settle := settled STATUS_CODES accepts_types.


(** X9.  Without an error, or without an error callback in the options,
    an invocation queues nothing: the queue of deferred calls is as it was
    and the trace holds no new deferral. *)
Theorem nothing_deferred req res options err w :
  err = None \/ onerror_of options = None ->
  let w' := snd (handler req res options err w) in
  immediates w' = immediates w
  /\ filter is_defer (trace w') = filter is_defer (trace w).
Proof.
  intros H w'. subst w' handler.
  assert (Hs : scheduled options err req res = []).
  { unfold scheduled. destruct H as [-> | ->]; [reflexivity|].
    destruct err; reflexivity. }
  destruct (finalhandler_run STATUS_CODES accepts_types req res options err w)
    as (_ & Ht & Hi).
  rewrite Hi, Ht, filter_app, invocation_defers, Hs. cbn [map].
  rewrite !app_nil_r. split; reflexivity.
Qed.

(** X10.  For a request of any method but HEAD and a resolved status that
    the response accepts (at most 999), the finalized response holds
    exactly the bytes of the rendered body, and its Content-Length is their
    number; the body is HTML when the negotiation answers 'html', and plain
    text for every other answer, the refusal included. *)
Theorem body_matches_length req res options err w :
  Res._header (responses w res) = false ->
  Req.listeners (requests w req) = [] ->
  Res.finished (responses w res) = false ->
  Res.output (responses w res) = [] ->
  jsstring_eqb (Req.method (requests w req)) (js "HEAD") = false ->
  (fst (response options err (requests w req) (Res.statusCode (responses w res)))
   <= 999)%Z ->
  let rs' := responses (settle req res options err w) res in
  let body := snd (response options err (requests w req)
                     (Res.statusCode (responses w res))) in
  Res.output rs' = bytes body
  /\ Res.getHeader (js "Content-Length") rs'
     = Some (HNum (Z.of_nat (length (Res.output rs'))))
  /\ Res.getHeader (js "Content-Type") rs'
     = Some (HStr (if match accepts_types (requests w req) with
                      | Some t => jsstring_eqb t (js "html")
                      | None => false
                      end
                   then js "text/html; charset=utf-8"
                   else js "text/plain; charset=utf-8")).
Proof.
  intros Hh Hl Hfin Hempty Hm Hmax rs' body.
  pose proof (response_range STATUS_CODES accepts_types _ _ _ _ Hmax) as Hrange.
  destruct (finalhandler_settles STATUS_CODES accepts_types req res options err w Hh Hl)
    as [Hr _].
  cbv zeta in Hr. fold response body in Hr.
  subst rs' settle. rewrite Hr.
  destruct (written_spec (Req.method (requests w req))
              (fst (response options err (requests w req)
                      (Res.statusCode (responses w res))))
              body (responses w res)) as (_ & _ & Hct & Hcl & Hout).
  cbv zeta in Hct, Hcl, Hout.
  destruct (Hout Hfin Hrange) as (_ & _ & Ho).
  unfold write_payload in Ho. rewrite Hm, Hempty in Ho. cbn [app] in Ho.
  rewrite Ho, Hcl, Hct. split; [reflexivity|]. split; [reflexivity|].
  subst body response. rewrite response_type. reflexivity.
Qed.

(** X11.  Finalizing a response replaces the three headers it sets and
    keeps every header that was set under another name. *)
Theorem other_headers_kept req res options err w name :
  Res._header (responses w res) = false ->
  Req.listeners (requests w req) = [] ->
  toLowerCase name <> js "x-content-type-options" ->
  toLowerCase name <> js "content-type" ->
  toLowerCase name <> js "content-length" ->
  Res.getHeader name (responses (settle req res options err w) res)
  = Res.getHeader name (responses w res).
Proof.
  intros Hh Hl H1 H2 H3.
  destruct (finalhandler_settles STATUS_CODES accepts_types req res options err w Hh Hl)
    as [Hr _].
  cbv zeta in Hr. subst settle. rewrite Hr.
  apply getHeader_written_other; assumption.
Qed.

End Responses.

(** * Two invocations on a request that is still being read *)

Lemma write_refused_world req res status body w :
  Res._header (responses w res) = true ->
  write req res status body w
  = (Throw HeadersSent,
     mkWorld (requests w)
             (upd res (Res.with_statusCode status (responses w res)) (responses w))
             (immediates w)
             (trace w ++ [ESetStatus res status;
                          ESetHeader res (js "X-Content-Type-Options")
                                     (HStr (js "nosniff"))])).
Proof.
  intros Hh. unfold write.
  destruct (set_statusCode_spec res status w) as [E1 _].
  rewrite (bind_ok _ _ _ E1).
  assert (Hw : snd (set_statusCode res status w)
               = mkWorld (requests w)
                         (upd res (Res.with_statusCode status (responses w res))
                              (responses w))
                         (immediates w) (trace w ++ [ESetStatus res status]))
    by reflexivity.
  rewrite Hw.
  erewrite bind_throw.
  - rewrite setHeader_sent; cbn [requests responses immediates trace snd].
    + rewrite <- app_assoc. reflexivity.
    + rewrite upd_eq. exact Hh.
  - rewrite setHeader_sent; [reflexivity|].
    cbn [responses]. rewrite upd_eq. exact Hh.
Qed.

Lemma ends_unfinished_invocation tbl acc req res options err w :
  Res._header (responses w res) = false ->
  Req.finished (requests w req) = false ->
  ends res (invocation_events tbl acc req res options err w) = 0%nat.
Proof.
  intros Hh Hf. unfold invocation_events. rewrite Hh, Hf, andb_false_r.
  match goal with
  | |- ends res (?d :: ?m ++ ?t) = _ => change (d :: m ++ t) with ((d :: m) ++ t)
  end.
  rewrite ends_app, ends_prelude. reflexivity.
Qed.

Section Twice.

Variable STATUS_CODES : Z -> option jsstring.
Variable accepts_types : Req.t -> option jsstring.

Let handler := finalhandler STATUS_CODES accepts_types.
Let response := response_for STATUS_CODES accepts_types.

(** X13.  Two invocations on a request that is still being read register
    two writes.  When the request ends and the response accepts the status
    of the first (at most 999), the first write goes through and the
    second fails at its first header: the response is ended once, with the
    body of the first invocation. *)
Theorem second_write_refused req res options err options' err' w :
  Res._header (responses w res) = false ->
  Req.finished (requests w req) = false ->
  Req.listeners (requests w req) = [] ->
  Res.finished (responses w res) = false ->
  (fst (response options err (requests w req) (Res.statusCode (responses w res)))
   <= 999)%Z ->
  let rq := requests w req in
  let body := snd (response options err rq (Res.statusCode (responses w res))) in
  let w1 := snd (handler req res options err w) in
  let w2 := snd (handler req res options' err' w1) in
  let w3 := snd (emit_finished req w2) in
  length (Req.listeners (requests w2 req)) = 2%nat
  /\ fst (emit_finished req w2) = Throw HeadersSent
  /\ ends res (trace w3) = S (ends res (trace w))
  /\ Res.output (responses w3 res)
     = Res.output (responses w res)
         ++ match write_payload (Req.method rq) body with Some d => d | None => [] end.
Proof.
  intros Hh Hf Hl Hfin Hmax rq body w1 w2 w3.
  pose proof (response_range STATUS_CODES accepts_types _ _ _ _ Hmax) as Hrange.
  fold response rq in Hrange.
  set (status := fst (response options err rq (Res.statusCode (responses w res)))) in *.
  (* the first invocation *)
  destruct (invocation_stores STATUS_CODES accepts_types req res options err w)
    as (_ & _ & Hq1 & Hr1).
  cbv zeta in Hq1, Hr1. fold handler response rq status body w1 in Hq1, Hr1.
  rewrite Hh in Hq1, Hr1. fold rq in Hf. rewrite Hf in Hq1, Hr1.
  destruct (finalhandler_run STATUS_CODES accepts_types req res options err w)
    as (_ & Ht1 & _).
  fold handler w1 in Ht1.
  assert (Hh1 : Res._header (responses w1 res) = false) by (rewrite Hr1; exact Hh).
  assert (Hf1 : Req.finished (requests w1 req) = false) by (rewrite Hq1; exact Hf).
  (* the second invocation *)
  destruct (invocation_stores STATUS_CODES accepts_types req res options' err' w1)
    as (_ & _ & Hq2 & Hr2).
  cbv zeta in Hq2, Hr2. fold handler response w2 in Hq2, Hr2.
  rewrite Hh1, Hf1 in Hq2, Hr2.
  destruct (finalhandler_run STATUS_CODES accepts_types req res options' err' w1)
    as (_ & Ht2 & _).
  fold handler w2 in Ht2.
  set (status' := fst (response options' err' (requests w1 req)
                         (Res.statusCode (responses w1 res)))) in *.
  set (body' := snd (response options' err' (requests w1 req)
                       (Res.statusCode (responses w1 res)))) in *.
  assert (Hl2 : Req.listeners (requests w2 req)
                = [WriteListener req res status body;
                   WriteListener req res status' body']).
  { rewrite Hq2, Hq1. cbn. fold rq in Hl. rewrite Hl. reflexivity. }
  assert (Hm2 : Req.method (requests w2 req) = Req.method rq).
  { rewrite Hq2, Hq1. reflexivity. }
  assert (Hends2 : ends res (trace w2) = ends res (trace w)).
  { rewrite Ht2, Ht1, !ends_app.
    rewrite ends_unfinished_invocation by assumption.
    rewrite ends_unfinished_invocation by assumption. lia. }
  (* the end of the request *)
  set (wa := mkWorld (upd req (finished_request (requests w2 req)) (requests w2))
                     (responses w2) (immediates w2) (trace w2 ++ [EFinished req])).
  assert (E : emit_finished req w2
              = bind (write req res status body)
                     (fun _ => bind (write req res status' body') (fun _ => ret tt)) wa).
  { unfold emit_finished. cbv [bind get_req set_req log].
    cbn [fst snd requests responses immediates trace]. rewrite Hl2. reflexivity. }
  assert (Hha : Res._header (responses wa res) = false).
  { subst wa. cbn [responses]. rewrite Hr2, Hr1. exact Hh. }
  destruct (write_run req res status body wa Hha) as (Ea & _ & _ & Hta & _ & Hra).
  set (wb := snd (write req res status body wa)) in *.
  assert (Hma : Req.method (requests wa req) = Req.method rq).
  { subst wa. cbn [requests]. rewrite upd_eq. exact Hm2. }
  rewrite Hma in Hta, Hra.
  destruct (written_spec (Req.method rq) status body (responses wa res))
    as (_ & _ & _ & _ & Hout).
  assert (Hfa : Res.finished (responses wa res) = false).
  { subst wa. cbn [responses]. rewrite Hr2, Hr1. exact Hfin. }
  destruct (Hout Hfa Hrange) as (Hhb & _ & Hob). rewrite <- Hra in Hhb, Hob.
  rewrite (refused_in_range _ _ Hrange) in Ea.
  pose proof (write_refused_world req res status' body' wb Hhb) as Eb.
  assert (E3 : emit_finished req w2
               = (Throw HeadersSent,
                  mkWorld (requests wb)
                          (upd res (Res.with_statusCode status' (responses wb res))
                               (responses wb))
                          (immediates wb)
                          (trace wb ++ [ESetStatus res status';
                                        ESetHeader res (js "X-Content-Type-Options")
                                                   (HStr (js "nosniff"))]))).
  { rewrite E, (bind_ok _ _ _ Ea). fold wb. unfold bind. rewrite Eb. reflexivity. }
  subst w3. rewrite E3. cbn [fst snd trace responses].
  split; [rewrite Hl2; reflexivity|]. split; [reflexivity|].
  split.
  - rewrite ends_app, Hta, ends_app, ends_write_events.
    subst wa. cbn [trace]. rewrite ends_app, Hends2. unfold ends at 2 3. cbn. lia.
  - rewrite upd_eq. cbn [Res.output Res.with_statusCode]. rewrite Hob.
    subst wa. cbn [responses]. rewrite Hr2, Hr1. reflexivity.
Qed.

End Twice.

(** * The further properties at concrete inputs *)


Lemma invocation_request_witness :
  let w := world_of post_upload unsent_response in
  let rq' := requests (snd (finalhandler reason_phrases prefers_text 0%nat 0%nat None
                              None w)) 0%nat in
  Res._header (responses w 0%nat) = false
  /\ Req.finished (requests w 0%nat) = false
  /\ Req.pipes (requests w 0%nat) = [1%nat]
  /\ Req.pipes rq' = []
  /\ Req.flowing rq' = true
  /\ Req.socket_destroyed rq' = false.
Proof.
  intros w rq'.
  destruct (invocation_request reason_phrases prefers_text 0%nat 0%nat None None w)
    as (Hs & Hu & _).
  destruct (Hu eq_refl eq_refl) as (Hp & Hf & _).
  split; [reflexivity|]. split; [reflexivity|]. split; [reflexivity|].
  split; [exact Hp|]. split; [exact Hf | exact Hs].
Defined.


Lemma nothing_deferred_witness :
  let w := world_of get_missing sent_response in
  let options := Some (Options.mk None (Some true)) in
  onerror_of options = None
  /\ immediates (snd (finalhandler reason_phrases prefers_text 0%nat 0%nat options
                        (Some odd_error) w)) = [].
Proof.
  intros w options.
  destruct (nothing_deferred reason_phrases prefers_text 0%nat 0%nat options
              (Some odd_error) w (or_intror eq_refl)) as [H _].
  split; [reflexivity | exact H].
Defined.

Lemma body_matches_length_witness :
  let w := world_of get_missing unsent_response in
  let rs' := responses (settled reason_phrases prefers_html 0%nat 0%nat None None w)
                       0%nat in
  jsstring_eqb (Req.method (requests w 0%nat)) (js "HEAD") = false
  /\ Res.getHeader (js "Content-Length") rs'
     = Some (HNum (Z.of_nat (length (Res.output rs'))))
  /\ Res.getHeader (js "Content-Type") rs' = Some (HStr (js "text/html; charset=utf-8")).
Proof.
  intros w rs'.
  assert (Hmax : (fst (response_for reason_phrases prefers_html None None
                         (requests w 0%nat) (Res.statusCode (responses w 0%nat)))
                  <= 999)%Z) by (apply Z.leb_le; reflexivity).
  destruct (body_matches_length reason_phrases prefers_html 0%nat 0%nat None None w
              eq_refl eq_refl eq_refl eq_refl eq_refl Hmax) as (_ & Hcl & Hct).
  split; [reflexivity|]. split; [exact Hcl | exact Hct].
Defined.

Lemma other_headers_kept_witness :
  let w := world_of get_missing cookie_response in
  let rs' := responses (settled reason_phrases prefers_text 0%nat 0%nat None None w)
                       0%nat in
  toLowerCase (js "Set-Cookie") <> js "content-type"
  /\ Res.getHeader (js "Set-Cookie") rs' = Some (HStr (js "sid=1")).
Proof.
  intros w rs'.
  assert (H1 : toLowerCase (js "Set-Cookie") <> js "x-content-type-options")
    by discriminate.
  assert (H2 : toLowerCase (js "Set-Cookie") <> js "content-type") by discriminate.
  assert (H3 : toLowerCase (js "Set-Cookie") <> js "content-length") by discriminate.
  split; [exact H2|].
  exact (other_headers_kept reason_phrases prefers_text 0%nat 0%nat None None w
           (js "Set-Cookie") eq_refl eq_refl H1 H2 H3).
Defined.

Lemma second_write_refused_witness :
  let w := world_of post_upload unsent_response in
  let w1 := snd (finalhandler reason_phrases prefers_text 0%nat 0%nat None None w) in
  let w2 := snd (finalhandler reason_phrases prefers_text 0%nat 0%nat None
                   (Some odd_error) w1) in
  let w3 := snd (emit_finished 0%nat w2) in
  Req.finished (requests w 0%nat) = false
  /\ fst (emit_finished 0%nat w2) = Throw HeadersSent
  /\ ends 0%nat (trace w3) = 1%nat
  /\ Res.output (responses w3 0%nat) = js "Cannot POST /api/upload\n".
Proof.
  intros w w1 w2 w3.
  assert (Hmax : (fst (response_for reason_phrases prefers_text None None
                         (requests w 0%nat) (Res.statusCode (responses w 0%nat)))
                  <= 999)%Z) by (apply Z.leb_le; reflexivity).
  destruct (second_write_refused reason_phrases prefers_text 0%nat 0%nat None None None
              (Some odd_error) w eq_refl eq_refl eq_refl eq_refl Hmax)
    as (_ & Ht & He & Ho).
  split; [reflexivity|]. split; [exact Ht|]. split; [exact He | exact Ho].
Defined.

(** * The message that is [undefined] *)

(** X14.  The message is [undefined], and the body then reads "undefined",
    in one case only: there is an error, stack traces are off, and the
    reason phrase table has no entry for the resolved status.  Without an
    error, or with stack traces on, the message is always a string. *)
Theorem message_undefined_iff (STATUS_CODES : Z -> option jsstring) st err rq s0 :
  snd (resolve STATUS_CODES st err rq s0) = None
  <-> err <> None /\ truthy st = false
      /\ STATUS_CODES (fst (resolve STATUS_CODES st err rq s0)) = None.
Proof.
  destruct err as [e|].
  - cbn [resolve fst snd]. destruct (truthy st) eqn:Hst.
    + unfold jsor. split.
      * destruct (truthy (Error.stack e)) eqn:Hs; [|discriminate].
        destruct (Error.stack e); [discriminate | discriminate Hs].
      * intros (_ & H & _). discriminate H.
    + split.
      * intros H. split; [discriminate|]. split; [reflexivity | exact H].
      * intros (_ & _ & H). exact H.
  - cbn [resolve snd]. split; [discriminate|]. intros (H & _). contradiction.
Qed.

Lemma message_undefined_iff_witness :
  let e := Error.mk (Some 700%Z) None (Some (js "Error: boom")) (js "Error: boom") in
  reason_phrases 700%Z = None
  /\ snd (resolve reason_phrases None (Some e) get_missing 200%Z) = None.
Proof.
  intros e. split; [reflexivity|].
  apply (proj2 (message_undefined_iff reason_phrases None (Some e) get_missing 200%Z)).
  split; [discriminate|]. split; reflexivity.
Defined.
